(** * Dhanista chat backend: the FAQ relevance scorer, the prompt assembly,
    reply extraction, persistence and file upload of [backend/routes/chat.js]

  The development is a shallow embedding of the route module.  JavaScript
  strings are sequences of UTF-16 code units, so a string is a [list N];
  the collection of chat documents, keyed by the unique [userId], is a
  finite map. *)

From Stdlib Require Import List ZArith NArith QArith Bool Lia.
From Stdlib.Strings Require Import String Ascii Byte.
From Stdlib Require Import DecimalString.
From Stdlib Require Import Permutation Sorted.
From stdpp Require Import gmap.
Import ListNotations.

Local Open Scope Z_scope.

(** ** JavaScript strings *)

Module JsString.

(** A string value: its UTF-16 code units. *)
Abbreviation t := (list N).

(** A literal of the source, all of whose characters are Basic Latin. *)
Definition lit (s : string) : t :=
  List.map Byte.to_N (list_byte_of_string s).

(** WhiteSpace and LineTerminator code points of ECMAScript: the class [\s]
    of a regular expression, and what [String.prototype.trim] strips. *)
Definition is_space (c : N) : bool :=
  ((9 <=? c) && (c <=? 13) || (c =? 32) || (c =? 160) || (c =? 5760)
   || (8192 <=? c) && (c <=? 8202) || (c =? 8232) || (c =? 8233)
   || (c =? 8239) || (c =? 8287) || (c =? 12288) || (c =? 65279))%N.

(** The class [[a-z0-9\s]]. *)
Definition is_word_or_space (c : N) : bool :=
  ((97 <=? c) && (c <=? 122) || (48 <=? c) && (c <=? 57))%N || is_space c.

Fixpoint trimStart (s : t) : t :=
  match s with
  | c :: s' => if is_space c then trimStart s' else s
  | [] => []
  end.

Definition trimEnd (s : t) : t := rev (trimStart (rev s)).

(** [s.trim()] *)
Definition trim (s : t) : t := trimEnd (trimStart s).

(** [s1 === s2] on two strings. *)
Fixpoint eqb (s1 s2 : t) : bool :=
  match s1, s2 with
  | [], [] => true
  | c :: s1', d :: s2' => (c =? d)%N && eqb s1' s2'
  | _, _ => false
  end.

(** ToBoolean of a string: the empty string is the only falsy one. *)
Definition truthy (s : t) : bool :=
  match s with [] => false | _ :: _ => true end.

(** [s.slice(-n)] and [arr.slice(-n)]: the last [n] elements, all of them
    when there are fewer. *)
Definition sliceLast {A : Type} (n : nat) (l : list A) : list A :=
  skipn (length l - n) l.

(** ToString of a non-negative integer: its decimal digits. *)
Definition ofNumber (n : N) : t :=
  lit (DecimalString.NilZero.string_of_uint (N.to_uint n)).

(** [s.startsWith(p)] *)
Fixpoint startsWith (s p : t) {struct p} : bool :=
  match p, s with
  | [], _ => true
  | _ :: _, [] => false
  | c :: p', d :: s' => (c =? d)%N && startsWith s' p'
  end.

(** [s.includes(p)]: [p] occurs in [s] as a contiguous run of code units. *)
Fixpoint includes (s p : t) : bool :=
  startsWith s p ||
  match s with
  | [] => false
  | _ :: s' => includes s' p
  end.

(** [s.split(/\s+/)], scanning left to right: [cur] is the piece being
    read (reversed), [insep] tells that the previous unit was part of the
    separator run that is being skipped. *)
Fixpoint split_ws_from (cur : t) (insep : bool) (s : t) : list t :=
  match s with
  | [] => [rev cur]
  | c :: s' =>
      if is_space c then
        if insep then split_ws_from [] true s'
        else rev cur :: split_ws_from [] true s'
      else split_ws_from (c :: cur) false s'
  end.

Definition split_ws (s : t) : list t := split_ws_from [] false s.

(** [pieces.join(sep)] *)
Fixpoint join (sep : t) (pieces : list t) : t :=
  match pieces with
  | [] => []
  | [p] => p
  | p :: rest => p ++ sep ++ join sep rest
  end.

(** [String.prototype.toLowerCase] on a string of Basic Latin characters.
    The full Unicode case mapping is a table of the runtime; the scorer
    below takes the mapping as a parameter, and this instance is the one
    used on the concrete Basic Latin inputs. *)
Definition lower_unit (c : N) : N :=
  if ((65 <=? c) && (c <=? 90))%N then (c + 32)%N else c.

Definition toLowerCase_latin (s : t) : t := List.map lower_unit s.

End JsString.

Abbreviation jsstring := (list N).
Notation "'js' s" := (JsString.lit s%string) (at level 9, s at level 0, only parsing).

(** ** Array.prototype.sort *)

(** [arr.sort(cmp)] is a stable sort (ECMAScript 2019): with a comparator
  that is a consistent ordering the result is determined, and it is the one
  straight insertion computes. [x] is placed before the first element [y]
  with [cmp x y <= 0]. *)
Section Sort.
Context {A : Type} (cmp : A -> A -> Z).

Fixpoint sort_insert (x : A) (l : list A) : list A :=
  match l with
  | [] => [x]
  | y :: l' => if cmp x y <=? 0 then x :: l else y :: sort_insert x l'
  end.

Fixpoint sort (l : list A) : list A :=
  match l with
  | [] => []
  | x :: l' => sort_insert x (sort l')
  end.
End Sort.

(** A comparator [(a, b) => key(b) - key(a)] puts larger keys first. *)
Definition desc {A : Type} (key : A -> Z) (a b : A) : Z := key b - key a.

(** The order such a sort establishes: [a] may come before [b]. *)
Definition notBelow {A : Type} (key : A -> Z) (a b : A) : Prop := key b <= key a.

(** ** The FAQ documents and the relevance scorer *)

(** A document of [models/FAQ]; its identifier and [createdAt] play no part
    in the routes. *)
Record FAQ := mkFAQ { title : jsstring; content : jsstring }.

Record Scored := mkScored { faq : FAQ; score : Z }.

Section Scorer.
(** [String.prototype.toLowerCase] of the runtime. *)
Variable toLowerCase : jsstring -> jsstring.

(** [text.toLowerCase().replace(/[^a-z0-9\s]/g, '').trim()] *)
Definition normalizeText (text : jsstring) : jsstring :=
  JsString.trim (List.filter JsString.is_word_or_space (toLowerCase text)).

(** [normalizedQuery.split(/\s+/).filter(word => word.length > 2)] *)
Definition queryWordsOf (normalizedQuery : jsstring) : list jsstring :=
  List.filter (fun word => (2 <? length word)%nat)
              (JsString.split_ws normalizedQuery).

(** The body of the [forEach] over the query words. *)
Definition wordStep (normalizedTitle normalizedContent : jsstring)
           (score : Z) (word : jsstring) : Z :=
  if JsString.includes normalizedTitle word then score + 2
  else if JsString.includes normalizedContent word then score + 1
  else score.

(** The callback of [faqs.map] in [findRelevantFaqs]; [query],
    [normalizedQuery] and [queryWords] are the variables it closes over. *)
Definition scoreFaq (query normalizedQuery : jsstring) (queryWords : list jsstring)
           (f : FAQ) : Scored :=
  let score := 0 in
  let normalizedTitle := normalizeText (title f) in
  let normalizedContent := normalizeText (content f) in
  let score := fold_left (wordStep normalizedTitle normalizedContent) queryWords score in
  let score :=
    if JsString.includes normalizedTitle normalizedQuery
       && (5 <? length normalizedQuery)%nat
    then score + 5 else score in
  let score :=
    if JsString.includes normalizedContent normalizedQuery
       && (5 <? length normalizedQuery)%nat
    then score + 2 else score in
  let score :=
    if JsString.includes (toLowerCase (title f)) (toLowerCase query)
    then score + 3 else score in
  let score :=
    if JsString.includes (toLowerCase (content f)) (toLowerCase query)
    then score + 1 else score in
  {| faq := f; score := score |}.

(** [item.score >= minScore] *)
Definition reaches (minScore : Q) (item : Scored) : bool :=
  Qle_bool minScore (inject_Z (score item)).

(** [(a, b) => b.score - a.score] *)
Definition byScoreDesc (a b : Scored) : Z := score b - score a.

Definition findRelevantFaqs (query : jsstring) (faqs : list FAQ) (minScore : Q)
  : list FAQ :=
  let normalizedQuery := normalizeText query in
  let queryWords := queryWordsOf normalizedQuery in
  let scoredFaqs := List.map (scoreFaq query normalizedQuery queryWords) faqs in
  let relevantFaqs :=
    List.map faq (sort byScoreDesc (List.filter (reaches minScore) scoredFaqs)) in
  firstn 3 relevantFaqs.

End Scorer.

(** The default of the [minScore] parameter. *)
Definition defaultMinScore : Q := 3 # 10.

(** *** The scoring rule as the specification words it *)

Section ScoringRule.
Variable toLowerCase : jsstring -> jsstring.

(** The relevance score of an entry for a query: the [score] the scorer
    pairs the entry with. *)
Definition scoreOf (query : jsstring) (f : FAQ) : Z :=
  let normalizedQuery := normalizeText toLowerCase query in
  let queryWords := queryWordsOf normalizedQuery in
  score (scoreFaq toLowerCase query normalizedQuery queryWords f).

(** [points] when the check holds. *)
Definition bonus (check : bool) (points : Z) : Z := if check then points else 0.

(** How many of the words pass a test. *)
Definition countWords (test : jsstring -> bool) (words : list jsstring) : Z :=
  Z.of_nat (length (List.filter test words)).

(** What the per-word keyword matching adds up to. *)
Definition keywordPoints (query : jsstring) (f : FAQ) : Z :=
  fold_left (wordStep (normalizeText toLowerCase (title f))
                      (normalizeText toLowerCase (content f)))
            (queryWordsOf (normalizeText toLowerCase query)) 0.

(** The four substring checks: the normalized query in the normalized title
    and content, the raw lowercased query in the raw lowercased title and
    content. *)
Definition substringPoints (query : jsstring) (f : FAQ) : Z :=
  let normalizedQuery := normalizeText toLowerCase query in
  bonus ((5 <? length normalizedQuery)%nat
         && JsString.includes (normalizeText toLowerCase (title f)) normalizedQuery) 5
  + bonus ((5 <? length normalizedQuery)%nat
           && JsString.includes (normalizeText toLowerCase (content f)) normalizedQuery) 2
  + bonus (JsString.includes (toLowerCase (title f)) (toLowerCase query)) 3
  + bonus (JsString.includes (toLowerCase (content f)) (toLowerCase query)) 1.

(** The score as a sum: 2 for each query word of length above 2 found in the
    normalized title, 1 for each such word found in the normalized content
    but not in the title, and the four substring checks. *)
Definition ruleScore (query : jsstring) (f : FAQ) : Z :=
  let normalizedTitle := normalizeText toLowerCase (title f) in
  let normalizedContent := normalizeText toLowerCase (content f) in
  let words :=
    List.filter (fun w => (2 <? length w)%nat)
                (JsString.split_ws (normalizeText toLowerCase query)) in
  2 * countWords (fun w => JsString.includes normalizedTitle w) words
  + 1 * countWords (fun w => JsString.includes normalizedContent w
                             && negb (JsString.includes normalizedTitle w)) words
  + substringPoints query f.

(** The entries that reach the threshold, in corpus order. *)
Definition passing (query : jsstring) (faqs : list FAQ) (minScore : Q) : list FAQ :=
  List.filter (fun f => Qle_bool minScore (inject_Z (scoreOf query f))) faqs.

End ScoringRule.

(** ** Values of the upstream response *)

Module Json.

(** A value read from the body of the upstream response, and [undefined],
    which reading an absent property gives.  [props] lists the own
    properties of an object, each name once. *)
#[warnings="-register-all"]
Inductive value :=
| VUndefined
| VNull
| VBool (b : bool)
| VNumber (q : Q)
| VString (s : jsstring)
| VArray (elems : list value)
| VObject (props : list (jsstring * value)).

(** What a property access or an expression evaluates to: a value, or a
    thrown [TypeError]. *)
Inductive completion (A : Type) :=
| Normal (a : A)
| ThrowTypeError.
Arguments Normal {A} a.
Arguments ThrowTypeError {A}.

Definition bind {A B} (c : completion A) (k : A -> completion B) : completion B :=
  match c with
  | Normal a => k a
  | ThrowTypeError => ThrowTypeError
  end.

(** The property keys the route reads. *)
Inductive key :=
| Named (name : jsstring)
| Length
| Index (i : nat).

Fixpoint lookup (name : jsstring) (props : list (jsstring * value)) : value :=
  match props with
  | [] => VUndefined
  | (k, v) :: rest => if JsString.eqb k name then v else lookup name rest
  end.

(** ToBoolean. *)
Definition truthy (v : value) : bool :=
  match v with
  | VUndefined | VNull => false
  | VBool b => b
  | VNumber q => negb (Qeq_bool q 0)
  | VString s => JsString.truthy s
  | VArray _ | VObject _ => true
  end.

(** [v.k] and [v[i]].  Reading a property of [undefined] or [null] throws;
    a primitive or an array has none of the named properties the route
    reads ([candidates], [content], [parts], [text]). *)
Definition getProp (v : value) (k : key) : completion value :=
  match v with
  | VUndefined | VNull => ThrowTypeError
  | VBool _ | VNumber _ => Normal VUndefined
  | VString s =>
      match k with
      | Named _ => Normal VUndefined
      | Length => Normal (VNumber (inject_Z (Z.of_nat (length s))))
      | Index i =>
          Normal (match nth_error s i with
                  | Some c => VString [c]
                  | None => VUndefined
                  end)
      end
  | VArray elems =>
      match k with
      | Named _ => Normal VUndefined
      | Length => Normal (VNumber (inject_Z (Z.of_nat (length elems))))
      | Index i =>
          Normal (match nth_error elems i with
                  | Some e => e
                  | None => VUndefined
                  end)
      end
  | VObject props =>
      match k with
      | Named name => Normal (lookup name props)
      | Length => Normal (lookup (js "length") props)
      | Index i => Normal (lookup (JsString.ofNumber (N.of_nat i)) props)
      end
  end.

(** A member chain [v.k1.k2...], evaluated left to right. *)
Fixpoint getPath (v : value) (path : list key) : completion value :=
  match path with
  | [] => Normal v
  | k :: rest => bind (getProp v k) (fun v' => getPath v' rest)
  end.

(** [c1 && c2 && ...] on conditions, left to right: a condition is
    evaluated only when those before it hold. *)
Fixpoint allOf (conds : list (completion bool)) : completion bool :=
  match conds with
  | [] => Normal true
  | c :: rest => bind c (fun b => if b then allOf rest else Normal false)
  end.

End Json.

Export Json (value(..), completion(..), key(..)).

Section ReplyExtraction.
(** [v > 0] for a string, array or object operand [v]: the comparison
    converts it with ToPrimitive and StringToNumber of the runtime, and
    ToPrimitive throws a [TypeError] on an object that has no callable
    [valueOf] or [toString] giving a primitive. *)
Variable coercedPositive : value -> completion bool.

(** [v > 0] *)
Definition positive (v : value) : completion bool :=
  match v with
  | VUndefined | VNull => Normal false
  | VBool b => Normal b
  | VNumber q => Normal (negb (Qle_bool q 0))
  | VString _ | VArray _ | VObject _ => coercedPositive v
  end.

Definition isTruthy (data : value) (path : list key) : completion bool :=
  Json.bind (Json.getPath data path) (fun v => Normal (Json.truthy v)).

Definition isPositive (data : value) (path : list key) : completion bool :=
  Json.bind (Json.getPath data path) positive.

Definition candidates := Named (js "candidates").
Definition contentKey := Named (js "content").
Definition partsKey := Named (js "parts").
Definition textKey := Named (js "text").

(** The reply of the [else] branch. *)
Definition malformedReply : jsstring :=
  js "I received an empty or unclear response from the AI. Please try again or ask your question in a different way.".

(** The condition of the [if] over [response.data], written [data]. *)
Definition hasCompletion (data : value) : completion bool :=
  Json.allOf
    [ isTruthy data [];
      isTruthy data [candidates];
      isPositive data [candidates; Length];
      isTruthy data [candidates; Index 0; contentKey];
      isTruthy data [candidates; Index 0; contentKey; partsKey];
      isPositive data [candidates; Index 0; contentKey; partsKey; Length] ].

(** The value of [reply] after the [if]/[else] that follows the upstream
    call. *)
Definition extractReply (data : value) : completion value :=
  Json.bind (hasCompletion data) (fun ok =>
    if ok then
      Json.getPath data [candidates; Index 0; contentKey; partsKey; Index 0; textKey]
    else Normal (VString malformedReply)).

End ReplyExtraction.

(** ** The chat documents ([models/Chat]) *)

Module Chat.

(** A sub-document of [messages].  [content] is the stored value, a string
    for every turn this route writes (the schema type [String] casts what
    is pushed); the [timestamp] the store library fills in from the wall
    clock is left out. *)
Record Message := mkMessage { sender : jsstring; content : value }.

(** One document per [userId]. *)
Record t := mk { userId : jsstring; messages : list Message }.

End Chat.

(** ** Prompt assembly of [POST /chat] *)

(** An element of [contents]: [{ role, parts: [{ text }] }]. *)
Record Part := mkPart { text : value }.
Record Content := mkContent { role : jsstring; parts : list Part }.

Record GenerationConfig := mkGenerationConfig { temperature : Q; maxOutputTokens : N }.
Record SafetySetting := mkSafetySetting { category : jsstring; threshold : jsstring }.

Record Payload := mkPayload {
  contents : list Content;
  generationConfig : GenerationConfig;
  safetySettings : list SafetySetting
}.

Definition nl : jsstring := [10%N].
Definition dq : jsstring := [34%N].
Definition indent : jsstring := js "        ".

(** [`Q: ${faq.title}\nA: ${faq.content}`] *)
Definition formatFaq (f : FAQ) : jsstring :=
  js "Q: " ++ title f ++ nl ++ js "A: " ++ content f.

Definition faqSeparator : jsstring := nl ++ nl ++ js "---" ++ nl ++ nl.

(** The value of [faqContextForGemini] after the [if] over
    [relevantFaqs.length > 0]. *)
Definition faqContext (relevantFaqs : list FAQ) : jsstring :=
  let faqContextForGemini := [] in
  if (0 <? length relevantFaqs)%nat
  then JsString.join faqSeparator (List.map formatFaq relevantFaqs)
  else faqContextForGemini.

(** The fixed text of the instruction template, up to its interpolation. *)
Definition instructionBlock : jsstring :=
  js "You are Dhanista, a helpful and knowledgeable AI assistant. Your primary goal is to answer user questions accurately and comprehensively." ++ nl
  ++ nl
  ++ indent ++ js "**Instructions:**" ++ nl
  ++ indent ++ js "1.  **Prioritize the provided relevant FAQs.** If the user's question can be answered by the information in "
  ++ dq ++ js "Relevant FAQs:" ++ dq ++ js ", use that information directly and comprehensively." ++ nl
  ++ indent ++ js "2.  If the " ++ dq ++ js "Relevant FAQs:" ++ dq
  ++ js " section is empty or does not sufficiently answer the question, attempt to answer using your general knowledge." ++ nl
  ++ indent ++ js "3.  **Crucially:** If you cannot find relevant information in the FAQs AND your general knowledge is insufficient, *do not say you don't have enough information*. Instead, acknowledge the query and politely suggest rephrasing or mention that the specific information might not be available in your current knowledge base. For example: "
  ++ dq ++ js "I don't have specific information on that topic in my current knowledge base. Could you please rephrase your question or ask about something else?" ++ dq
  ++ js " or " ++ dq ++ js "The information you're looking for might not be in my FAQs. Can I help with anything else?" ++ dq ++ nl
  ++ indent ++ js "4.  Maintain a friendly and professional tone." ++ nl
  ++ nl
  ++ indent.

(** The template literal [systemInstruction]. *)
Definition systemInstruction (faqContextForGemini : jsstring) : jsstring :=
  instructionBlock
  ++ (if JsString.truthy faqContextForGemini
      then js "**Relevant FAQs:**" ++ nl ++ faqContextForGemini ++ nl ++ nl
      else []).

(** [m => ['user', 'ai'].includes(m.sender)] *)
Definition isChatSender (m : Chat.Message) : bool :=
  existsb (JsString.eqb (Chat.sender m)) [js "user"; js "ai"].

(** The turns kept from [chat.messages]: the value of [currentChatHistory]
    after the [if]/[else] over its last sender. *)
Definition trimHistory (messages : list Chat.Message) : list Chat.Message :=
  let currentChatHistory := List.filter isChatSender messages in
  if (0 <? length currentChatHistory)%nat
     && match nth_error currentChatHistory (length currentChatHistory - 1) with
        | Some m => JsString.eqb (Chat.sender m) (js "user")
        | None => false
        end
  then JsString.sliceLast 6 currentChatHistory
  else JsString.sliceLast 5 currentChatHistory.

(** The callback of [currentChatHistory.map]. *)
Definition toContent (msg : Chat.Message) : Content :=
  {| role := if JsString.eqb (Chat.sender msg) (js "user") then js "user" else js "model";
     parts := [ {| text := Chat.content msg |} ] |}.

(** The value of [chatHistory] for the document [Chat.findOne] returned. *)
Definition chatHistoryOf (chat : option Chat.t) : list Content :=
  match chat with
  | Some c => List.map toContent (trimHistory (Chat.messages c))
  | None => []
  end.

Definition blockNone (c : string) : SafetySetting :=
  {| category := JsString.lit c; threshold := js "BLOCK_NONE" |}.

(** The object [payload]. *)
Definition buildPayload (relevantFaqs : list FAQ) (chatHistory : list Content)
           (message : jsstring) : Payload :=
  {| contents :=
       {| role := js "user";
          parts := [ {| text := VString (systemInstruction (faqContext relevantFaqs)) |} ] |}
       :: chatHistory
       ++ [ {| role := js "user"; parts := [ {| text := VString message |} ] |} ];
     generationConfig := {| temperature := 1 # 2; maxOutputTokens := 500 |};
     safetySettings :=
       [ blockNone "HARM_CATEGORY_HARASSMENT";
         blockNone "HARM_CATEGORY_HATE_SPEECH";
         blockNone "HARM_CATEGORY_SEXUALLY_EXPLICIT";
         blockNone "HARM_CATEGORY_DANGEROUS_CONTENT" ] |}.

(** ** The route [POST /chat] *)

(** The two collections of the document store. *)
Record Store := mkStore {
  faqs : list FAQ;
  chats : gmap jsstring Chat.t
}.

(** The body of a chat request; [None] is an absent field. *)
Record ChatRequest := mkChatRequest {
  reqUserId : option jsstring;
  reqMessage : option jsstring
}.

(** [!field] *)
Definition missing (field : option jsstring) : bool :=
  match field with
  | Some s => negb (JsString.truthy s)
  | None => true
  end.

(** How the handler ends: with the [400], with [res.json({ reply })], or in
    the [catch] block, which answers [500] with an apology picked from the
    error (that choice is not modelled). *)
Inductive ChatResponse :=
| BadRequest
| Replied (reply : value)
| ServerError.

(** What the collaborators of one request do: whether the two reads and the
    [save] of the document store succeed (schema validation on [save] is
    the store library's and is part of that outcome), what the upstream
    call answers to the payload ([None] when [axios.post] rejects), and how
    the store library casts a pushed [content] that is no string to the
    schema type [String] of [models/Chat] ([None] when it has no string
    form, and the document cannot be saved). *)
Record Outside := mkOutside {
  faqFindOk : bool;
  chatFindOk : bool;
  upstream : Payload -> option value;
  saveOk : bool;
  castOther : value -> option jsstring
}.

(** The cast of a pushed [content] to the schema type [String]: a string is
    stored as it is, any other value in the string form the store library
    gives it. *)
Definition schemaString (out : Outside) (v : value) : option jsstring :=
  match v with
  | VString s => Some s
  | _ => castOther out v
  end.

(** [chat.messages.push(...)] twice, on the document found or on a new one;
    [stored] is the reply as cast to the schema type. *)
Definition appendExchange (uid : jsstring) (chat : option Chat.t)
           (message : jsstring) (stored : jsstring) : Chat.t :=
  let chat := match chat with
              | Some c => c
              | None => {| Chat.userId := uid; Chat.messages := [] |}
              end in
  let chat := {| Chat.userId := Chat.userId chat;
                 Chat.messages := Chat.messages chat
                   ++ [ {| Chat.sender := js "user"; Chat.content := VString message |} ] |} in
  {| Chat.userId := Chat.userId chat;
     Chat.messages := Chat.messages chat
       ++ [ {| Chat.sender := js "ai"; Chat.content := VString stored |} ] |}.

Section ChatRoute.
Variable toLowerCase : jsstring -> jsstring.
Variable coercedPositive : value -> completion bool.

Definition postChat (out : Outside) (st : Store) (req : ChatRequest)
  : ChatResponse * Store :=
  if missing (reqUserId req) || missing (reqMessage req) then (BadRequest, st)
  else
    match reqUserId req, reqMessage req with
    | Some uid, Some message =>
        if negb (faqFindOk out) then (ServerError, st)
        else
          let relevantFaqs :=
            findRelevantFaqs toLowerCase message (faqs st) defaultMinScore in
          if negb (chatFindOk out) then (ServerError, st)
          else
            let chat := chats st !! uid in
            let chatHistory := chatHistoryOf chat in
            let payload := buildPayload relevantFaqs chatHistory message in
            match upstream out payload with
            | None => (ServerError, st)
            | Some data =>
                match extractReply coercedPositive data with
                | ThrowTypeError => (ServerError, st)
                | Normal reply =>
                    match schemaString out reply with
                    | None => (ServerError, st)
                    | Some stored =>
                        let chat := appendExchange uid chat message stored in
                        if saveOk out
                        then (Replied reply,
                              {| faqs := faqs st; chats := <[uid := chat]> (chats st) |})
                        else (ServerError, st)
                    end
                end
            end
    | _, _ => (BadRequest, st)
    end.

End ChatRoute.

(** ** [Buffer.prototype.toString('utf8')] *)

Module Utf8.

(** The decoder's state between two bytes: the code point read so far, the
    continuation bytes seen and needed, and the range the next one must
    lie in. *)
Record state := mkState {
  codePoint : N;
  seen : N;
  needed : N;
  lower : N;
  upper : N
}.

Definition init : state :=
  {| codePoint := 0; seen := 0; needed := 0; lower := 128; upper := 191 |}.

Definition replacement : N := 65533.

(** A byte read when no sequence is open: the code points it yields and
    the state that follows. *)
Definition lead (b : N) : list N * state :=
  if (b <=? 127)%N then ([b], init)
  else if ((194 <=? b) && (b <=? 223))%N then
    ([], {| codePoint := N.land b 31; seen := 0; needed := 1;
            lower := 128; upper := 191 |})
  else if ((224 <=? b) && (b <=? 239))%N then
    ([], {| codePoint := N.land b 15; seen := 0; needed := 2;
            lower := if (b =? 224)%N then 160%N else 128%N;
            upper := if (b =? 237)%N then 159%N else 191%N |})
  else if ((240 <=? b) && (b <=? 244))%N then
    ([], {| codePoint := N.land b 7; seen := 0; needed := 3;
            lower := if (b =? 240)%N then 144%N else 128%N;
            upper := if (b =? 244)%N then 143%N else 191%N |})
  else ([replacement], init).

(** One byte.  A byte that cannot continue the open sequence closes it with
    U+FFFD and is then read as a leading byte. *)
Definition step (st : state) (b : N) : list N * state :=
  if (needed st =? 0)%N then lead b
  else if ((lower st <=? b) && (b <=? upper st))%N then
    let cp := N.lor (N.shiftl (codePoint st) 6) (N.land b 63) in
    if (seen st + 1 =? needed st)%N then ([cp], init)
    else ([], {| codePoint := cp; seen := seen st + 1; needed := needed st;
                 lower := 128; upper := 191 |})
  else
    let '(out, st') := lead b in (replacement :: out, st').

(** The code points of a byte sequence; a sequence left open at the end
    yields U+FFFD. *)
Fixpoint decodeFrom (st : state) (bytes : list byte) : list N :=
  match bytes with
  | [] => if (needed st =? 0)%N then [] else [replacement]
  | b :: rest =>
      let '(out, st') := step st (Byte.to_N b) in
      out ++ decodeFrom st' rest
  end.

(** The UTF-16 code units of a code point. *)
Definition toUnits (cp : N) : jsstring :=
  if (cp <? 65536)%N then [cp]
  else
    let c := (cp - 65536)%N in
    [ (55296 + N.shiftr c 10)%N; (56320 + N.land c 1023)%N ].

(** [buffer.toString('utf8')] *)
Definition toString (buffer : list byte) : jsstring :=
  flat_map toUnits (decodeFrom init buffer).

End Utf8.

(** ** The route [POST /upload-file-faq] *)

(** [req.file], as the multipart middleware with memory storage fills it. *)
Record UploadedFile := mkUploadedFile {
  originalname : jsstring;
  mimetype : jsstring;
  buffer : list byte;
  size : N
}.

Record UploadRequest := mkUploadRequest {
  reqTitle : option jsstring;
  reqFile : option UploadedFile
}.

(** What the PDF library answers: [data.text], or the message of the error
    it throws. *)
Inductive PdfOutcome :=
| PdfText (text : jsstring)
| PdfError (message : jsstring).

Record UploadOutside := mkUploadOutside {
  pdf : list byte -> PdfOutcome;
  faqSaveOk : bool
}.

(** [201] with the new document, [400], or the [500] of the [catch]. *)
Inductive UploadResponse :=
| UploadBadRequest
| Created (newFAQ : FAQ)
| UploadServerError.

(** The value of [extractedContent] after the chain over the mimetype. *)
Definition extractContent (out : UploadOutside) (uploadedFile : UploadedFile) : jsstring :=
  if JsString.eqb (mimetype uploadedFile) (js "application/pdf") then
    match pdf out (buffer uploadedFile) with
    | PdfText text => text
    | PdfError message =>
        js "[Failed to extract text from PDF: " ++ message ++ js "]"
    end
  else if JsString.startsWith (mimetype uploadedFile) (js "text/") then
    Utf8.toString (buffer uploadedFile)
  else
    js "[File uploaded: " ++ originalname uploadedFile
    ++ js ", Type: " ++ mimetype uploadedFile
    ++ js ", Size: " ++ JsString.ofNumber (size uploadedFile) ++ js " bytes]".

Definition postUploadFileFaq (out : UploadOutside) (st : Store) (req : UploadRequest)
  : UploadResponse * Store :=
  if missing (reqTitle req) || match reqFile req with Some _ => false | None => true end
  then (UploadBadRequest, st)
  else
    match reqTitle req, reqFile req with
    | Some title, Some uploadedFile =>
        let extractedContent := extractContent out uploadedFile in
        let newFAQ := {| title := title; content := extractedContent |} in
        if faqSaveOk out
        then (Created newFAQ, {| faqs := faqs st ++ [newFAQ]; chats := chats st |})
        else (UploadServerError, st)
    | _, _ => (UploadBadRequest, st)
    end.

(** ** Notions of the specification *)

(** The most recent turn of a history is from the user. *)
Definition endsWithUser (history : list Chat.Message) : Prop :=
  exists older m, history = older ++ [m] /\ Chat.sender m = js "user".

(** [kept] is exactly the last [n] turns of [history] (all of them when
    there are fewer). *)
Definition lastTurns (n : nat) (history kept : list Chat.Message) : Prop :=
  (exists dropped, history = dropped ++ kept)
  /\ length kept = Nat.min n (length history).

(** A user-role message of the payload. *)
Definition userMessage (t : jsstring) : Content :=
  {| role := js "user"; parts := [ {| text := VString t |} ] |}.

(** The turns stored for a user; none before the first exchange. *)
Definition turnsOf (st : Store) (uid : jsstring) : list Chat.Message :=
  match chats st !! uid with
  | Some c => Chat.messages c
  | None => []
  end.

(** An upstream response body with one candidate of one text part. *)
Definition textCompletion (t : jsstring) : value :=
  VObject [(js "candidates",
            VArray [VObject [(js "content",
              VObject [(js "parts", VArray [VObject [(js "text", VString t)]])])]])].

(** The entry of the specification's example. *)
Definition refundPolicy : FAQ :=
  mkFAQ (js "Refund Policy") (js "We refund within 30 days").

(** ** The [catch] block of [POST /chat] *)

(** [error.response] of a rejected upstream call: the status and the body
    the upstream answered with. *)
Record ErrorResponse := mkErrorResponse { errStatus : N; errData : value }.

(** The error the [catch] block receives: [error.response] (absent unless
    the upstream answered with an error status), [error.code] (absent unless
    it is a string) and [error.message]. *)
Record CaughtError := mkCaughtError {
  errResponse : option ErrorResponse;
  errCode : option jsstring;
  errMessage : jsstring
}.

(** [m.includes(needle)] for a value [m] of the response body: the substring
    test of a string, the membership test of an array, and a [TypeError] for
    anything else, which has no callable [includes]. *)
Definition callIncludes (m : value) (needle : jsstring) : completion bool :=
  match m with
  | VString s => Normal (JsString.includes s needle)
  | VArray elems =>
      Normal (existsb (fun e => match e with
                                | VString s => JsString.eqb s needle
                                | _ => false
                                end) elems)
  | _ => ThrowTypeError
  end.

(** [status === 400 && data.error && data.error.message.includes("safety")] *)
Definition mentionsSafety (response : ErrorResponse) : completion bool :=
  if (errStatus response =? 400)%N then
    Json.bind (Json.getProp (errData response) (Named (js "error"))) (fun e =>
      if Json.truthy e then
        Json.bind (Json.getProp e (Named (js "message")))
                  (fun m => callIncludes m (js "safety"))
      else Normal false)
  else Normal false.

Definition unexpectedApology : jsstring :=
  js "An unexpected error occurred. Please try again later or contact support if the issue persists.".
Definition safetyApology : jsstring :=
  js "I cannot answer that question as it violates my safety guidelines. Please rephrase your query.".
Definition badRequestApology : jsstring :=
  js "There was an issue with your request. This might be due to an invalid input or API problem. Please try again.".
Definition authApology : jsstring :=
  js "Authentication failed with the AI service. Please check the API key configuration on the server.".
Definition internalApology : jsstring :=
  js "The AI service encountered an internal error. Please try again in a few moments.".
Definition connectApology : jsstring :=
  js "I'm having trouble connecting to the AI service. Please check your network connection or try again later.".
Definition apiKeyApology : jsstring :=
  js "There's an issue with the API key. Please ensure it's correctly configured on the server.".

(** [`I'm encountering a problem ... (Status: ${error.response.status}). ...`] *)
Definition statusApology (status : N) : jsstring :=
  js "I'm encountering a problem processing your request (Status: "
  ++ JsString.ofNumber status ++ js "). Please try again.".

(** [error.code === c] *)
Definition codeIs (error : CaughtError) (c : jsstring) : bool :=
  match errCode error with
  | Some code => JsString.eqb code c
  | None => false
  end.

(** The value of [userFacingError] when the [catch] block sends its [500],
    or the [TypeError] the block itself throws. *)
Definition userFacingError (error : CaughtError) : completion jsstring :=
  let userFacingError := unexpectedApology in
  match errResponse error with
  | Some response =>
      Json.bind (mentionsSafety response) (fun safety =>
        Normal
          (if safety then safetyApology
           else if (errStatus response =? 400)%N then badRequestApology
           else if ((errStatus response =? 401) || (errStatus response =? 403))%N
                then authApology
           else if (errStatus response =? 500)%N then internalApology
           else statusApology (errStatus response)))
  | None =>
      Normal
        (if codeIs error (js "ECONNREFUSED") || codeIs error (js "ENOTFOUND")
         then connectApology
         else if JsString.includes (errMessage error) (js "API key not valid")
              then apiKeyApology
         else userFacingError)
  end.

(** ** The route [POST /faqs] *)

Record FaqRequest := mkFaqRequest {
  faqTitle : option jsstring;
  faqContent : option jsstring
}.

(** [400], [201] with the new document, or the [500] of the [catch]. *)
Inductive FaqResponse :=
| FaqBadRequest
| FaqCreated (newFAQ : FAQ)
| FaqServerError.

(** The handler; [saveOk] tells whether [newFAQ.save()] succeeds. *)
Definition postFaqs (saveOk : bool) (st : Store) (req : FaqRequest)
  : FaqResponse * Store :=
  if missing (faqTitle req) || missing (faqContent req) then (FaqBadRequest, st)
  else
    match faqTitle req, faqContent req with
    | Some title, Some content =>
        let newFAQ := {| title := title; content := content |} in
        if saveOk
        then (FaqCreated newFAQ, {| faqs := faqs st ++ [newFAQ]; chats := chats st |})
        else (FaqServerError, st)
    | _, _ => (FaqBadRequest, st)
    end.

(** The status and the [message] of the JSON body each answer carries
    (for a [500], the message is the fixed text, the error's own is a
    separate field). *)
Definition faqAnswer (r : FaqResponse) : N * jsstring :=
  match r with
  | FaqBadRequest => (400%N, js "FAQ title and content are required.")
  | FaqCreated _ => (201%N, js "Text FAQ uploaded successfully!")
  | FaqServerError => (500%N, js "Failed to upload text FAQ.")
  end.

Definition uploadAnswer (r : UploadResponse) : N * jsstring :=
  match r with
  | UploadBadRequest => (400%N, js "FAQ title and file are required.")
  | Created _ => (201%N, js "File uploaded and processed successfully!")
  | UploadServerError => (500%N, js "Failed to process file or upload FAQ.")
  end.

(** ** The callers: [ChatBox] and [AdminUpload] *)

(** What [axios.post] gives the caller: the body of a 2xx answer, or a
    rejection (any other status, or no answer). *)
Inductive AxiosResult :=
| Resolved (data : value)
| Rejected.

(** The state of [ChatBox] together with the [messages] of [App], which
    [addMessage] extends. *)
Record ChatBoxState := mkChatBoxState {
  boxMessages : list Chat.Message;
  boxInput : jsstring;
  isTyping : bool
}.

Definition demoUserId : jsstring := js "demo_user_123".

Definition oops : jsstring := js "Oops! Something went wrong. Please try again.".

(** The request [sendMessage] posts for a message. *)
Definition chatRequestOf (userMessage : jsstring) : ChatRequest :=
  {| reqUserId := Some demoUserId; reqMessage := Some userMessage |}.

(** [sendMessage], run to its end against a backend [post]. *)
Definition sendMessage (post : ChatRequest -> AxiosResult) (s : ChatBoxState)
  : ChatBoxState :=
  if negb (JsString.truthy (JsString.trim (boxInput s))) then s
  else
    let userMessage := JsString.trim (boxInput s) in
    let messages :=
      boxMessages s
      ++ [ {| Chat.sender := js "user"; Chat.content := VString userMessage |} ] in
    let shown :=
      match post (chatRequestOf userMessage) with
      | Resolved data =>
          match Json.getProp data (Named (js "reply")) with
          | Normal aiReply => aiReply
          | ThrowTypeError => VString oops
          end
      | Rejected => VString oops
      end in
    {| boxMessages := messages ++ [ {| Chat.sender := js "ai"; Chat.content := shown |} ];
       boxInput := [];
       isTyping := false |}.

(** How an answer of [POST /chat] reaches [axios.post]: [res.json] answers
    200 with the body, the [400] and the [500] are rejections.  (A [catch]
    block that itself throws sends no answer; [userFacingError] tells when,
    and that case is not an answer this carries.) *)
Definition chatOverHttp (r : ChatResponse) : AxiosResult :=
  match r with
  | Replied reply => Resolved (VObject [(js "reply", reply)])
  | BadRequest | ServerError => Rejected
  end.

(** The backend as [ChatBox] reaches it: the route on a store, its answer
    carried over HTTP. *)
Definition chatBackend (toLowerCase : jsstring -> jsstring)
           (coercedPositive : value -> completion bool)
           (out : Outside) (st : Store) (req : ChatRequest) : AxiosResult :=
  chatOverHttp (fst (postChat toLowerCase coercedPositive out st req)).

(** The fields of [AdminUpload]. *)
Record AdminState := mkAdminState {
  adminTitle : jsstring;
  adminContent : jsstring;
  adminFile : option UploadedFile
}.

(** What [upload] posts: a text FAQ to [/faqs] or a file to
    [/upload-file-faq]. *)
Inductive AdminRequest :=
| TextFaq (req : FaqRequest)
| FileFaq (req : UploadRequest).

(** The validation and the choice of endpoint in [upload]: the text of the
    modal it shows, or the request it posts. *)
Definition chooseUpload (s : AdminState) : jsstring + AdminRequest :=
  if negb (JsString.truthy (JsString.trim (adminTitle s)))
  then inl (js "FAQ Title cannot be empty! Please provide a title.")
  else if negb (JsString.truthy (JsString.trim (adminContent s)))
          && match adminFile s with Some _ => false | None => true end
  then inl (js "Please provide either FAQ Content or upload a file.")
  else
    match adminFile s with
    | Some file =>
        inr (FileFaq {| reqTitle := Some (adminTitle s); reqFile := Some file |})
    | None =>
        inr (TextFaq {| faqTitle := Some (adminTitle s);
                        faqContent := Some (adminContent s) |})
    end.

(** The backend's answer to a request of [AdminUpload]: status and message. *)
Definition adminBackend (pdfOut : UploadOutside) (saveOk : bool) (st : Store)
           (r : AdminRequest) : (N * jsstring) * Store :=
  match r with
  | TextFaq req => let '(a, st') := postFaqs saveOk st req in (faqAnswer a, st')
  | FileFaq req =>
      let '(a, st') :=
        postUploadFileFaq {| pdf := pdf pdfOut; faqSaveOk := saveOk |} st req in
      (uploadAnswer a, st')
  end.

(** The fields after [upload] has handled an answer: a 2xx answer whose
    message includes "successfully" clears them, any other leaves them. *)
Definition afterUpload (s : AdminState) (answer : N * jsstring) : AdminState :=
  let '(status, message) := answer in
  if ((200 <=? status) && (status <? 300))%N
     && JsString.truthy message
     && JsString.includes message (js "successfully")
  then {| adminTitle := []; adminContent := []; adminFile := None |}
  else s.

(** ** Notions used by the further properties *)

(** The class [[a-z0-9]]. *)
Definition is_alnum (c : N) : bool :=
  ((97 <=? c) && (c <=? 122) || (48 <=? c) && (c <=? 57))%N.

(** [l1] is an initial segment of [l2]. *)
Definition isPrefix {A : Type} (l1 l2 : list A) : Prop :=
  exists rest, l2 = l1 ++ rest.

(** A list of turns made of exchanges: a user turn, then an assistant turn,
    again and again. *)
Inductive exchangeLog : list Chat.Message -> Prop :=
| log_empty : exchangeLog []
| log_exchange (m r : value) (rest : list Chat.Message) :
    exchangeLog rest ->
    exchangeLog (Chat.mkMessage (js "user") m :: Chat.mkMessage (js "ai") r :: rest).

(** A value the comparison [v > 0] has to convert before it compares: a
    string, an array or an object. *)
Definition needsCoercion (v : value) : bool :=
  match v with
  | VString _ | VArray _ | VObject _ => true
  | _ => false
  end.

(** [null] or [undefined]. *)
Definition nullish (v : value) : bool :=
  match v with
  | VUndefined | VNull => true
  | _ => false
  end.

(** * Properties *)

(** ** Strings *)

Module JsStringFacts.
Import JsString.

Lemma eqb_eq (s1 s2 : jsstring) : eqb s1 s2 = true <-> s1 = s2.
Proof.
  revert s2; induction s1 as [|c s1 IH]; intros [|d s2]; simpl; try easy.
  rewrite andb_true_iff, N.eqb_eq, IH. split.
  - intros [-> ->]; reflexivity.
  - intros [= -> ->]; auto.
Qed.

Lemma eqb_refl (s : jsstring) : eqb s s = true.
Proof. apply eqb_eq; reflexivity. Qed.

Lemma startsWith_spec (s p : jsstring) :
  startsWith s p = true <-> exists r, s = p ++ r.
Proof.
  revert s; induction p as [|c p IH]; intros s; simpl.
  - split; [intros _; exists s; reflexivity | reflexivity].
  - destruct s as [|d s].
    + split; [discriminate | intros [r Hr]; discriminate].
    + rewrite andb_true_iff, N.eqb_eq, IH. split.
      * intros [-> [r ->]]. exists r. reflexivity.
      * intros [r [= -> ->]]. split; [reflexivity | exists r; reflexivity].
Qed.

(** [includes] is the substring test. *)
Lemma includes_spec (s p : jsstring) :
  includes s p = true <-> exists a b, s = a ++ p ++ b.
Proof.
  induction s as [|d s IH]; simpl.
  - rewrite orb_false_r, startsWith_spec. split.
    + intros [r Hr]. exists [], r. exact Hr.
    + intros (a & b & Hab). destruct a; [exists b; exact Hab | discriminate].
  - rewrite orb_true_iff, startsWith_spec, IH. split.
    + intros [[r Hr] | (a & b & ->)].
      * exists [], r. exact Hr.
      * exists (d :: a), b. reflexivity.
    + intros (a & b & Hab). destruct a as [|e a]; simpl in Hab.
      * left. exists b. exact Hab.
      * right. injection Hab as -> ->. exists a, b. reflexivity.
Qed.

Lemma includes_nil (s : jsstring) : includes s [] = true.
Proof. destruct s; reflexivity. Qed.

(** The pieces of [split_ws] hold no white space. *)
Lemma split_ws_from_no_space (s cur : jsstring) (insep : bool) :
  Forall (fun c => is_space c = false) cur ->
  Forall (Forall (fun c => is_space c = false)) (split_ws_from cur insep s).
Proof.
  revert cur insep; induction s as [|c s IH]; intros cur insep Hcur; simpl.
  - constructor; [|constructor]. apply Forall_rev. exact Hcur.
  - destruct (is_space c) eqn:Hc.
    + destruct insep.
      * apply IH. constructor.
      * constructor; [apply Forall_rev; exact Hcur | apply IH; constructor].
    + apply IH. constructor; assumption.
Qed.

Lemma split_ws_no_space (s : jsstring) :
  Forall (Forall (fun c => is_space c = false)) (split_ws s).
Proof. apply split_ws_from_no_space. constructor. Qed.

Lemma trimStart_spec (s : jsstring) :
  exists a, s = a ++ trimStart s
            /\ Forall (fun c => is_space c = true) a
            /\ (forall c r, trimStart s = c :: r -> is_space c = false).
Proof.
  induction s as [|c s (a & Hs & Ha & Hhd)]; simpl.
  - exists []. repeat split; [constructor | discriminate].
  - destruct (is_space c) eqn:Hc.
    + exists (c :: a). repeat split.
      * simpl. congruence.
      * constructor; assumption.
      * exact Hhd.
    + exists []. repeat split; [constructor|].
      intros c' r [= <- _]. exact Hc.
Qed.

(** [trim] cuts a run of white space off each end, and no more. *)
Lemma trim_spec (s : jsstring) :
  exists a b, s = a ++ trim s ++ b
              /\ Forall (fun c => is_space c = true) a
              /\ Forall (fun c => is_space c = true) b
              /\ (forall c r, trim s = c :: r -> is_space c = false)
              /\ (forall c r, trim s = r ++ [c] -> is_space c = false).
Proof.
  destruct (trimStart_spec s) as (a & Hs & Ha & Hhd).
  destruct (trimStart_spec (rev (trimStart s))) as (b & Hr & Hb & Hlast).
  unfold trim, trimEnd.
  set (u := trimStart (rev (trimStart s))) in *.
  assert (Ht : trimStart s = rev u ++ rev b).
  { rewrite <- (rev_involutive (trimStart s)), Hr, rev_app_distr. reflexivity. }
  exists a, (rev b). repeat split.
  - rewrite <- Ht. exact Hs.
  - exact Ha.
  - apply Forall_rev. exact Hb.
  - intros c r Hu. apply (Hhd c (r ++ rev b)). rewrite Ht, Hu. reflexivity.
  - intros c r Hu. apply (Hlast c (rev r)).
    rewrite <- (rev_involutive u), Hu, rev_app_distr. reflexivity.
Qed.

End JsStringFacts.

(** ** Sorting *)

Section SortFacts.
Context {A : Type}.

Lemma sort_insert_perm (cmp : A -> A -> Z) (x : A) (l : list A) :
  Permutation (sort_insert cmp x l) (x :: l).
Proof.
  induction l as [|y l IH]; simpl.
  - reflexivity.
  - destruct (cmp x y <=? 0).
    + reflexivity.
    + rewrite IH. apply perm_swap.
Qed.

Lemma sort_perm (cmp : A -> A -> Z) (l : list A) : Permutation (sort cmp l) l.
Proof.
  induction l as [|x l IH]; simpl.
  - reflexivity.
  - rewrite sort_insert_perm, IH. reflexivity.
Qed.

Lemma sort_length (cmp : A -> A -> Z) (l : list A) :
  length (sort cmp l) = length l.
Proof. apply Permutation_length, sort_perm. Qed.

(** Sorting commutes with a [map] that the comparator looks through. *)
Lemma sort_map {B : Type} (g : B -> A) (cmp : A -> A -> Z) (l : list B) :
  sort cmp (List.map g l) = List.map g (sort (fun a b => cmp (g a) (g b)) l).
Proof.
  induction l as [|x l IH]; simpl; [reflexivity|].
  rewrite IH. generalize (sort (fun a b => cmp (g a) (g b)) l) as m.
  induction m as [|y m IHm]; simpl; [reflexivity|].
  destruct (cmp (g x) (g y) <=? 0); simpl; congruence.
Qed.

Variable key : A -> Z.

Lemma sort_insert_sorted (x : A) (l : list A) :
  StronglySorted (notBelow key) l -> StronglySorted (notBelow key) (sort_insert (desc key) x l).
Proof.
  induction 1 as [|y l Hl IH Hy]; simpl.
  - repeat constructor.
  - unfold desc at 1.
    destruct (Z.leb_spec (key y - key x) 0) as [Hle|Hgt].
    + constructor; [constructor; assumption|].
      constructor; [unfold notBelow; lia|].
      eapply Forall_impl; [exact Hy|].
      unfold notBelow. intros; simpl in *; lia.
    + constructor; [exact IH|].
      rewrite (sort_insert_perm (desc key) x l).
      constructor; [unfold notBelow; lia | exact Hy].
Qed.

Lemma sort_sorted (l : list A) : StronglySorted (notBelow key) (sort (desc key) l).
Proof.
  induction l as [|x l IH]; simpl.
  - constructor.
  - apply sort_insert_sorted, IH.
Qed.

(** Stability: the elements of any one key come out in the order they
    went in. *)
Lemma sort_insert_stable (s : Z) (x : A) (l : list A) :
  List.filter (fun a => key a =? s) (sort_insert (desc key) x l)
  = List.filter (fun a => key a =? s) (x :: l).
Proof.
  induction l as [|y l IH]; [reflexivity|].
  simpl sort_insert. unfold desc at 1.
  destruct (Z.leb_spec (key y - key x) 0) as [Hle|Hgt]; [reflexivity|].
  simpl. rewrite IH. simpl.
  destruct (Z.eqb_spec (key y) s), (Z.eqb_spec (key x) s); try reflexivity; lia.
Qed.

Lemma sort_stable (s : Z) (l : list A) :
  List.filter (fun a => key a =? s) (sort (desc key) l)
  = List.filter (fun a => key a =? s) l.
Proof.
  induction l as [|x l IH]; [reflexivity|].
  simpl sort. rewrite sort_insert_stable. simpl. rewrite IH. reflexivity.
Qed.

Lemma Forall_firstn_of (P : A -> Prop) (n : nat) (l : list A) :
  Forall P l -> Forall P (firstn n l).
Proof.
  intros Hl. revert n. induction Hl as [|x l Hx _ IH]; intros [|n]; simpl;
    constructor; auto.
Qed.

Lemma sorted_firstn (n : nat) (l : list A) :
  StronglySorted (notBelow key) l -> StronglySorted (notBelow key) (firstn n l).
Proof.
  intros Hl. revert n. induction Hl as [|x l _ IH Hx]; intros [|n]; simpl;
    constructor; auto using Forall_firstn_of.
Qed.

(** A list whose keys are all equal is left as it is. *)
Lemma sort_constant (k : Z) (l : list A) :
  Forall (fun a => key a = k) l -> sort (desc key) l = l.
Proof.
  induction 1 as [|x l Hx Hl IH]; simpl; [reflexivity|].
  rewrite IH. destruct Hl as [|y l Hy Hl]; simpl; [reflexivity|].
  unfold desc. replace (key y - key x) with 0 by lia. reflexivity.
Qed.

End SortFacts.

(** ** The relevance scorer *)

Section ScorerFacts.
Variable toLowerCase : jsstring -> jsstring.


Lemma fold_wordStep (nt nc : jsstring) (words : list jsstring) (acc : Z) :
  fold_left (wordStep nt nc) words acc
  = acc + 2 * countWords (fun w => JsString.includes nt w) words
    + 1 * countWords (fun w => JsString.includes nc w
                               && negb (JsString.includes nt w)) words.
Proof.
  revert acc; induction words as [|w words IH]; intros acc; simpl.
  - unfold countWords; simpl. lia.
  - rewrite IH. unfold wordStep, countWords. simpl.
    destruct (JsString.includes nt w), (JsString.includes nc w); simpl; lia.
Qed.

(** The accumulated score splits into the keyword part and the substring
    part. *)
Lemma scoreOf_split (query : jsstring) (f : FAQ) :
  scoreOf toLowerCase query f
  = keywordPoints toLowerCase query f + substringPoints toLowerCase query f.
Proof.
  unfold scoreOf, scoreFaq, keywordPoints, substringPoints, bonus.
  cbn [score].
  rewrite (andb_comm (5 <? _)%nat), (andb_comm (5 <? _)%nat).
  repeat match goal with |- context [if ?b then _ else _] => destruct b end; lia.
Qed.

(** ** C2 *)

(** C2: the score the scorer accumulates for an entry is the sum the rule
    states: 2 per query word (length above 2) found in the normalized title,
    1 per such word found in the normalized content and not in the title,
    5 and 2 for the normalized query (length above 5) inside the normalized
    title and content, 3 and 1 for the raw lowercased query inside the raw
    lowercased title and content; normalization lowercases, keeps only the
    characters of [a-z0-9\s], and trims. *)
Theorem score_is_rule_sum (query : jsstring) (f : FAQ) :
  scoreOf toLowerCase query f = ruleScore toLowerCase query f
  /\ forall text,
     exists a b,
       List.filter JsString.is_word_or_space (toLowerCase text)
       = a ++ normalizeText toLowerCase text ++ b
       /\ Forall (fun c => JsString.is_space c = true) a
       /\ Forall (fun c => JsString.is_space c = true) b
       /\ (forall c r, normalizeText toLowerCase text = c :: r ->
                       JsString.is_space c = false)
       /\ (forall c r, normalizeText toLowerCase text = r ++ [c] ->
                       JsString.is_space c = false).
Proof.
  split.
  - rewrite scoreOf_split. unfold keywordPoints, ruleScore, queryWordsOf.
    rewrite fold_wordStep. lia.
  - intros text. apply JsStringFacts.trim_spec.
Qed.

(** ** C1 *)

Lemma filter_map_comm {A B : Type} (g : A -> B) (p : B -> bool) (l : list A) :
  List.filter p (List.map g l) = List.map g (List.filter (fun a => p (g a)) l).
Proof.
  induction l as [|a l IH]; simpl; [reflexivity|].
  destruct (p (g a)); simpl; congruence.
Qed.

(** The scorer ranks the entries themselves: the scored pairs it builds and
    drops again play no part in the result. *)
Lemma findRelevantFaqs_ranked (query : jsstring) (faqs : list FAQ) (minScore : Q) :
  findRelevantFaqs toLowerCase query faqs minScore
  = firstn 3 (sort (desc (scoreOf toLowerCase query)) (passing toLowerCase query faqs minScore)).
Proof.
  unfold findRelevantFaqs, passing. f_equal.
  rewrite filter_map_comm, sort_map, map_map. simpl.
  rewrite map_id. reflexivity.
Qed.

(** C1 (as amended): the scorer returns at most 3 entries: the first three
    (all of them when there are fewer) of the entries whose score reaches
    the threshold, taken in non-increasing score order, entries of equal
    score in their corpus order. *)
Theorem findRelevantFaqs_top_three (query : jsstring) (faqs : list FAQ) (minScore : Q) :
  let returned := findRelevantFaqs toLowerCase query faqs minScore in
  let reaching := passing toLowerCase query faqs minScore in
  (length returned <= 3)%nat
  /\ length returned = Nat.min 3 (length reaching)
  /\ Forall (fun f => Qle_bool minScore (inject_Z (scoreOf toLowerCase query f)) = true)
            returned
  /\ StronglySorted (notBelow (scoreOf toLowerCase query)) returned
  /\ exists ranked : list FAQ,
       returned = firstn 3 ranked
       /\ Permutation ranked reaching
       /\ StronglySorted (notBelow (scoreOf toLowerCase query)) ranked
       /\ forall s : Z,
            List.filter (fun f => scoreOf toLowerCase query f =? s) ranked
            = List.filter (fun f => scoreOf toLowerCase query f =? s) reaching.
Proof.
  intros returned reaching.
  set (ranked := sort (desc (scoreOf toLowerCase query)) reaching).
  assert (Hret : returned = firstn 3 ranked) by apply findRelevantFaqs_ranked.
  assert (Hperm : Permutation ranked reaching) by apply sort_perm.
  assert (Hsorted : StronglySorted (notBelow (scoreOf toLowerCase query)) ranked)
    by apply sort_sorted.
  assert (Hlen : length returned = Nat.min 3 (length reaching)).
  { rewrite Hret, length_firstn. unfold ranked. rewrite sort_length. reflexivity. }
  split; [lia|]. split; [exact Hlen|]. split; [|split].
  - rewrite Hret. apply Forall_firstn_of.
    apply List.Forall_forall. intros f Hf.
    apply (Permutation_in _ Hperm) in Hf.
    unfold reaching, passing in Hf. apply filter_In in Hf. apply Hf.
  - rewrite Hret. apply sorted_firstn, Hsorted.
  - exists ranked. split; [exact Hret|]. split; [exact Hperm|].
    split; [exact Hsorted|]. intros s. apply sort_stable.
Qed.

(** ** C7 *)

(** C7 (as amended): when the normalized query has no word of length above
    2, the keyword matching adds nothing and the score is that of the four
    substring checks. *)
Theorem short_words_score_only_substrings (query : jsstring) (f : FAQ) :
  Forall (fun w => (length w <= 2)%nat)
         (JsString.split_ws (normalizeText toLowerCase query)) ->
  keywordPoints toLowerCase query f = 0
  /\ scoreOf toLowerCase query f = substringPoints toLowerCase query f.
Proof.
  intros Hshort.
  assert (Hnone : queryWordsOf (normalizeText toLowerCase query) = []).
  { unfold queryWordsOf.
    induction Hshort as [|w ws Hw _ IH]; simpl; [reflexivity|].
    destruct (Nat.ltb_spec 2 (length w)); [lia | exact IH]. }
  assert (Hkw : keywordPoints toLowerCase query f = 0).
  { unfold keywordPoints. rewrite Hnone. reflexivity. }
  split; [exact Hkw|].
  rewrite scoreOf_split, Hkw. lia.
Qed.

(** ** C10 *)

Lemma empty_query_score (f : FAQ) :
  toLowerCase [] = [] -> scoreOf toLowerCase [] f = 4.
Proof.
  intros Hlow. rewrite scoreOf_split.
  unfold keywordPoints, substringPoints, normalizeText.
  rewrite Hlow. simpl. rewrite !JsStringFacts.includes_nil. reflexivity.
Qed.

(** C10: for the empty query every entry scores 4 (3 and 1 from the two raw
    substring checks, nothing from the words or the normalized checks), so
    on a non-empty corpus the scorer returns the first min(3, length)
    entries in corpus order, which is not the empty list. *)
Theorem empty_query_returns_corpus_prefix (faqs : list FAQ) :
  toLowerCase [] = [] ->
  faqs <> [] ->
  (forall f, keywordPoints toLowerCase [] f = 0 /\ scoreOf toLowerCase [] f = 4)
  /\ findRelevantFaqs toLowerCase [] faqs defaultMinScore
     = firstn (Nat.min 3 (length faqs)) faqs
  /\ findRelevantFaqs toLowerCase [] faqs defaultMinScore <> [].
Proof.
  intros Hlow Hne.
  assert (Hpass : passing toLowerCase [] faqs defaultMinScore = faqs).
  { unfold passing. induction faqs as [|f l IH]; simpl; [reflexivity|].
    rewrite (empty_query_score f Hlow). simpl.
    destruct l; [reflexivity|]. f_equal. apply IH. discriminate. }
  assert (Hres : findRelevantFaqs toLowerCase [] faqs defaultMinScore = firstn 3 faqs).
  { rewrite findRelevantFaqs_ranked, Hpass.
    rewrite (sort_constant (scoreOf toLowerCase []) 4); [reflexivity|].
    apply Forall_forall. intros f _. apply empty_query_score, Hlow. }
  split; [|split].
  - intros f. split; [|apply empty_query_score, Hlow].
    unfold keywordPoints, normalizeText. rewrite Hlow. reflexivity.
  - rewrite Hres. destruct faqs as [|a [|b [|c l]]]; reflexivity.
  - rewrite Hres. destruct faqs; [congruence | discriminate].
Qed.

End ScorerFacts.

(** ** The scorer on concrete corpora

    The inputs below are Basic Latin, where [toLowerCase] of the runtime is
    [JsString.toLowerCase_latin]. *)

Module ScorerExamples.

Abbreviation lower := JsString.toLowerCase_latin.

(** C1, as stated, fails: of four entries that all reach the threshold for
    the query, the fourth is not returned, so the returned entries are not
    exactly those that reach it. *)
Lemma fourth_passing_entry_not_returned :
  let corpus :=
    [ mkFAQ (js "Tax one") (js "first");
      mkFAQ (js "Tax two") (js "second");
      mkFAQ (js "Tax three") (js "third");
      mkFAQ (js "Tax four") (js "fourth") ] in
  let query := js "tax" in
  ~ (forall f : FAQ,
       In f (findRelevantFaqs lower query corpus defaultMinScore)
       <-> In f corpus
           /\ Qle_bool defaultMinScore (inject_Z (scoreOf lower query f)) = true).
Proof.
  intros corpus query Hexact.
  assert (Hin : In (mkFAQ (js "Tax four") (js "fourth"))
                   (findRelevantFaqs lower query corpus defaultMinScore)).
  { apply Hexact. split; [simpl; tauto | vm_compute; reflexivity]. }
  vm_compute in Hin.
  repeat (destruct Hin as [Hin|Hin]; [discriminate Hin|]).
  exact Hin.
Qed.

(** C6, as stated, fails: the entry does not score 5 or more. *)
Lemma refund_policy_scores_below_five :
  ~ (5 <= scoreOf lower (js "what is your refund policy") refundPolicy).
Proof. vm_compute. intros H. apply H. reflexivity. Qed.

(** C6 (as amended): for the query "what is your refund policy" the entry
    scores 4, all of it from the query words refund and policy found in the
    title (the title does not contain the query, so no substring check
    adds to it), and the entry is returned. *)
Theorem refund_policy_scores_four_and_is_returned :
  scoreOf lower (js "what is your refund policy") refundPolicy = 4
  /\ keywordPoints lower (js "what is your refund policy") refundPolicy = 4
  /\ substringPoints lower (js "what is your refund policy") refundPolicy = 0
  /\ queryWordsOf (normalizeText lower (js "what is your refund policy"))
     = [js "what"; js "your"; js "refund"; js "policy"]
  /\ findRelevantFaqs lower (js "what is your refund policy") [refundPolicy]
                      defaultMinScore
     = [refundPolicy].
Proof. vm_compute. repeat split. Qed.

(** C7, as stated, fails: the query "tax" has no word of length above 3, yet
    its one word is matched in the title and adds 2 to the score. *)
Lemma three_letter_word_is_matched :
  let query := js "tax" in
  let entry := mkFAQ (js "Tax rules") (js "Filing dates") in
  Forall (fun w => (length w <= 3)%nat)
         (JsString.split_ws (normalizeText lower query))
  /\ keywordPoints lower query entry = 2
  /\ scoreOf lower query entry <> substringPoints lower query entry.
Proof.
  split; [|split].
  - vm_compute. repeat constructor.
  - vm_compute. reflexivity.
  - vm_compute. discriminate.
Qed.

Lemma short_words_score_only_substrings_witness :
  Forall (fun w => (length w <= 2)%nat)
         (JsString.split_ws (normalizeText lower (js "Is it ok?")))
  /\ (keywordPoints lower (js "Is it ok?") (mkFAQ (js "Is it ok to pay late") (js "No"))
      = 0
      /\ scoreOf lower (js "Is it ok?") (mkFAQ (js "Is it ok to pay late") (js "No"))
         = substringPoints lower (js "Is it ok?")
                           (mkFAQ (js "Is it ok to pay late") (js "No"))).
Proof.
  split.
  - vm_compute. repeat constructor.
  - apply (short_words_score_only_substrings lower).
    vm_compute. repeat constructor.
Defined.

Lemma empty_query_returns_corpus_prefix_witness :
  lower [] = []
  /\ [refundPolicy] <> []
  /\ ((forall f, keywordPoints lower [] f = 0 /\ scoreOf lower [] f = 4)
      /\ findRelevantFaqs lower [] [refundPolicy] defaultMinScore
         = firstn (Nat.min 3 (length [refundPolicy])) [refundPolicy]
      /\ findRelevantFaqs lower [] [refundPolicy] defaultMinScore <> []).
Proof.
  split; [reflexivity|]. split; [discriminate|].
  apply (empty_query_returns_corpus_prefix lower [refundPolicy]);
    [reflexivity | discriminate].
Defined.

End ScorerExamples.

(** ** History trimming *)

Section HistoryFacts.

Lemma sliceLast_lastTurns (n : nat) (history : list Chat.Message) :
  lastTurns n history (JsString.sliceLast n history).
Proof.
  unfold lastTurns, JsString.sliceLast. split.
  - exists (firstn (length history - n) history).
    symmetry. apply firstn_skipn.
  - rewrite length_skipn. lia.
Qed.

Lemma filter_all_chat_senders (messages : list Chat.Message) :
  Forall (fun m => Chat.sender m = js "user" \/ Chat.sender m = js "ai") messages ->
  List.filter isChatSender messages = messages.
Proof.
  induction 1 as [|m l Hm _ IH]; simpl; [reflexivity|].
  rewrite IH. unfold isChatSender.
  destruct Hm as [-> | ->]; reflexivity.
Qed.

(** The test on the last sender, read off the list. *)
Lemma last_sender_test (history : list Chat.Message) :
  ((0 <? length history)%nat
   && match nth_error history (length history - 1) with
      | Some m => JsString.eqb (Chat.sender m) (js "user")
      | None => false
      end) = true
  <-> endsWithUser history.
Proof.
  unfold endsWithUser.
  induction history as [|m rest _] using rev_ind.
  - simpl. split; [discriminate|].
    intros (older & m & Heq & _). destruct older; discriminate.
  - rewrite length_app. simpl length.
    replace (length rest + 1 - 1)%nat with (length rest) by lia.
    rewrite nth_error_app2, Nat.sub_diag by lia. simpl nth_error.
    replace (0 <? length rest + 1)%nat with true
      by (symmetry; apply Nat.ltb_lt; lia).
    simpl andb. rewrite JsStringFacts.eqb_eq. split.
    + intros Hm. exists rest, m. split; [reflexivity | exact Hm].
    + intros (older & m' & Heq & Hm).
      apply app_inj_tail in Heq as [_ ->]. exact Hm.
Qed.

(** C3: on a stored history (every sender is user or ai), when the history
    is non-empty and its most recent turn is from the user, exactly its last
    6 turns are kept; otherwise exactly its last 5.  Turns of any other
    sender, which this subsystem never stores, are set aside before. *)
Theorem trimHistory_keeps_last_six_or_five (messages : list Chat.Message) :
  Forall (fun m => Chat.sender m = js "user" \/ Chat.sender m = js "ai") messages ->
  (endsWithUser messages -> lastTurns 6 messages (trimHistory messages))
  /\ (~ endsWithUser messages -> lastTurns 5 messages (trimHistory messages)).
Proof.
  intros Hsenders. unfold trimHistory.
  rewrite (filter_all_chat_senders messages Hsenders).
  pose proof (last_sender_test messages) as Htest.
  destruct (_ && _) eqn:Hb.
  - split; [intros _; apply sliceLast_lastTurns|].
    intros Hnot. exfalso. apply Hnot, Htest. reflexivity.
  - split; [|intros _; apply sliceLast_lastTurns].
    intros Hu. apply Htest in Hu. discriminate.
Qed.

End HistoryFacts.

Module HistoryExamples.

Abbreviation user t := (Chat.mkMessage (js "user") (VString (js t))).
Abbreviation ai t := (Chat.mkMessage (js "ai") (VString (js t))).

(** Seven alternating turns ending in a user turn: the last 6 are kept. *)
Lemma trimHistory_keeps_last_six_or_five_witness :
  let turns := [user "q1"; ai "a1"; user "q2"; ai "a2"; user "q3"; ai "a3"; user "q4"] in
  Forall (fun m => Chat.sender m = js "user" \/ Chat.sender m = js "ai") turns
  /\ endsWithUser turns
  /\ lastTurns 6 turns (trimHistory turns)
  /\ trimHistory turns = [ai "a1"; user "q2"; ai "a2"; user "q3"; ai "a3"; user "q4"].
Proof.
  intros turns.
  assert (Hs : Forall (fun m => Chat.sender m = js "user" \/ Chat.sender m = js "ai") turns)
    by (repeat constructor; simpl; auto).
  assert (Hu : endsWithUser turns)
    by (exists [user "q1"; ai "a1"; user "q2"; ai "a2"; user "q3"; ai "a3"], (user "q4");
        split; reflexivity).
  split; [exact Hs|]. split; [exact Hu|]. split.
  - exact (proj1 (trimHistory_keeps_last_six_or_five turns Hs) Hu).
  - reflexivity.
Defined.

(** Seven alternating turns ending in an assistant turn: the last 5 are
    kept. *)
Example seven_turns_ending_in_assistant :
  trimHistory [ai "a0"; user "q1"; ai "a1"; user "q2"; ai "a2"; user "q3"; ai "a3"]
  = [ai "a1"; user "q2"; ai "a2"; user "q3"; ai "a3"].
Proof. reflexivity. Qed.

End HistoryExamples.

(** ** Prompt assembly *)

Section PayloadFacts.

Lemma faqContext_none : faqContext [] = [].
Proof. reflexivity. Qed.

Lemma faqContext_some (f : FAQ) (rest : list FAQ) :
  faqContext (f :: rest)
  = JsString.join faqSeparator (List.map formatFaq (f :: rest))
  /\ JsString.truthy (faqContext (f :: rest)) = true.
Proof.
  split; [reflexivity|].
  unfold faqContext. simpl. destruct rest; reflexivity.
Qed.

(** C4: the payload's contents are, in order, a user-role message holding
    the instruction block, then the kept history turns (sender user as role
    user, the assistant sender ai as role model, each with its content),
    then the query as a user-role message.  With matched entries the
    instruction block ends with the entries formatted as Q: title, newline,
    A: content, joined by a --- separator line, under a heading; with none
    it carries no such block. *)
Theorem payload_contents_in_order
        (relevantFaqs : list FAQ) (history : list Chat.Message) (message : jsstring) :
  contents (buildPayload relevantFaqs (List.map toContent history) message)
  = userMessage (systemInstruction (faqContext relevantFaqs))
    :: List.map toContent history ++ [userMessage message]
  /\ (forall m,
        parts (toContent m) = [ {| text := Chat.content m |} ]
        /\ (Chat.sender m = js "user" -> role (toContent m) = js "user")
        /\ (Chat.sender m = js "ai" -> role (toContent m) = js "model"))
  /\ (relevantFaqs = [] ->
      systemInstruction (faqContext relevantFaqs) = instructionBlock)
  /\ (relevantFaqs <> [] ->
      systemInstruction (faqContext relevantFaqs)
      = instructionBlock
        ++ js "**Relevant FAQs:**" ++ nl
        ++ JsString.join (nl ++ nl ++ js "---" ++ nl ++ nl)
             (List.map (fun f => js "Q: " ++ title f ++ nl ++ js "A: " ++ content f)
                       relevantFaqs)
        ++ nl ++ nl).
Proof.
  split; [reflexivity|]. split; [|split].
  - intros m. split; [reflexivity|].
    split; intros Hs; unfold toContent; rewrite Hs; reflexivity.
  - intros ->. unfold systemInstruction. rewrite faqContext_none.
    cbn [JsString.truthy]. apply app_nil_r.
  - intros Hne. destruct relevantFaqs as [|f rest]; [congruence|].
    destruct (faqContext_some f rest) as [Hctx Htruthy].
    unfold systemInstruction. rewrite Htruthy, Hctx. reflexivity.
Qed.

End PayloadFacts.

Module PayloadExamples.

(** The payload for one matched entry and a two-turn history. *)
Lemma payload_contents_in_order_witness :
  let history := [Chat.mkMessage (js "user") (VString (js "hello"));
                  Chat.mkMessage (js "ai") (VString (js "hi"))] in
  [refundPolicy] <> []
  /\ List.map role
       (contents (buildPayload [refundPolicy] (List.map toContent history) (js "refunds?")))
     = [js "user"; js "user"; js "model"; js "user"]
  /\ systemInstruction (faqContext [refundPolicy])
     = instructionBlock
       ++ js "**Relevant FAQs:**" ++ nl
       ++ js "Q: Refund Policy" ++ nl ++ js "A: We refund within 30 days"
       ++ nl ++ nl.
Proof.
  intros history.
  pose proof (payload_contents_in_order [refundPolicy] history (js "refunds?"))
    as (Hcontents & _ & _ & Hblock).
  split; [discriminate|]. split.
  - rewrite Hcontents. reflexivity.
  - rewrite Hblock by discriminate. reflexivity.
Defined.

End PayloadExamples.

(** ** Reply extraction *)

Section ExtractionFacts.
Variable coercedPositive : value -> completion bool.

(** A body without [candidates] (or with a falsy one) gives the fixed
    reply of the [else] branch. *)
Lemma extractReply_without_candidates (props : list (jsstring * value)) :
  Json.truthy (Json.lookup (js "candidates") props) = false ->
  extractReply coercedPositive (VObject props) = Normal (VString malformedReply).
Proof.
  intros Hc. unfold extractReply, hasCompletion, isTruthy, candidates.
  cbn [Json.getPath Json.getProp Json.bind Json.allOf Json.truthy].
  rewrite Hc. reflexivity.
Qed.

(** A falsy body gives it too. *)
Lemma extractReply_falsy_body (data : value) :
  Json.truthy data = false ->
  extractReply coercedPositive data = Normal (VString malformedReply).
Proof.
  intros Hd. unfold extractReply, hasCompletion, isTruthy.
  cbn [Json.getPath Json.bind Json.allOf]. rewrite Hd. reflexivity.
Qed.

(** When the first candidate has content whose first part is an object,
    the reply is that part's [text], whatever it is. *)
Lemma extractReply_first_part
      (props cprops ctprops pprops : list (jsstring * value))
      (cs ps : list value) :
  Json.lookup (js "candidates") props = VArray (VObject cprops :: cs) ->
  Json.lookup (js "content") cprops = VObject ctprops ->
  Json.lookup (js "parts") ctprops = VArray (VObject pprops :: ps) ->
  extractReply coercedPositive (VObject props)
  = Normal (Json.lookup (js "text") pprops).
Proof.
  intros Hc Hct Hp.
  unfold extractReply, hasCompletion, isTruthy, isPositive,
    candidates, contentKey, partsKey, textKey.
  repeat (cbn [Json.getPath Json.getProp Json.bind Json.allOf Json.truthy
               nth_error positive length];
          rewrite ?Hc, ?Hct, ?Hp).
  reflexivity.
Qed.

(** C5 (the code falls short of it): on a response whose first part carries
    no [text], extraction yields [undefined], not a string; on a response
    whose first candidate, or first part, is [null], it throws. *)
Theorem extractReply_is_not_total :
  extractReply coercedPositive
    (VObject [(js "candidates",
               VArray [VObject [(js "content",
                 VObject [(js "parts",
                   VArray [VObject [(js "inlineData", VObject [])]])])]])])
  = Normal VUndefined
  /\ extractReply coercedPositive (VObject [(js "candidates", VArray [VNull])])
     = ThrowTypeError
  /\ extractReply coercedPositive
       (VObject [(js "candidates",
                  VArray [VObject [(js "content",
                    VObject [(js "parts", VArray [VNull])])]])])
     = ThrowTypeError.
Proof. repeat split. Qed.

End ExtractionFacts.

(** ** Persistence of an exchange *)

Section PersistenceFacts.
Variable toLowerCase : jsstring -> jsstring.
Variable coercedPositive : value -> completion bool.

(** C8 (as amended): an exchange that is answered leaves the user's record
    with exactly two more turns, the user turn with the incoming message
    and then the assistant turn with the returned reply as the schema of the
    record stores it, which is the returned reply whenever that reply is a
    string, after the turns stored before, which are unchanged; a user
    without a record gets one, created with no turns before them. Other
    records and the FAQ entries are unchanged. *)
Theorem postChat_appends_exchange
        (out : Outside) (st st' : Store) (req : ChatRequest) (reply : value) :
  postChat toLowerCase coercedPositive out st req = (Replied reply, st') ->
  exists uid message stored,
    reqUserId req = Some uid
    /\ reqMessage req = Some message
    /\ schemaString out reply = Some stored
    /\ (forall s, reply = VString s -> stored = s)
    /\ turnsOf st' uid
       = turnsOf st uid
         ++ [ Chat.mkMessage (js "user") (VString message);
              Chat.mkMessage (js "ai") (VString stored) ]
    /\ (chats st !! uid = None ->
        turnsOf st uid = []
        /\ exists c, chats st' !! uid = Some c /\ Chat.userId c = uid)
    /\ (forall other, other <> uid -> chats st' !! other = chats st !! other)
    /\ faqs st' = faqs st.
Proof.
  unfold postChat. intros Hrun.
  destruct (missing (reqUserId req) || missing (reqMessage req)); [discriminate|].
  destruct (reqUserId req) as [uid|]; [|discriminate].
  destruct (reqMessage req) as [message|]; [|discriminate].
  destruct (faqFindOk out); [|discriminate]. simpl in Hrun.
  destruct (chatFindOk out); [|discriminate]. simpl in Hrun.
  destruct (upstream out _) as [data|]; [|discriminate].
  destruct (extractReply coercedPositive data) as [r|]; [|discriminate].
  destruct (schemaString out r) as [stored|] eqn:Hcast; [|discriminate].
  destruct (saveOk out); [|discriminate].
  injection Hrun as -> <-.
  exists uid, message, stored. unfold turnsOf. simpl.
  rewrite lookup_insert_eq.
  split; [reflexivity|]. split; [reflexivity|]. split; [exact Hcast|].
  split; [|split; [|split; [|split]]].
  - intros s ->. simpl in Hcast. congruence.
  - unfold appendExchange. destruct (chats st !! uid); simpl;
      rewrite <- ?app_assoc; reflexivity.
  - intros Hnone. rewrite Hnone. split; [reflexivity|].
    eexists. split; reflexivity.
  - intros other Hother. apply lookup_insert_ne. congruence.
  - reflexivity.
Qed.

End PersistenceFacts.

Module ExchangeExamples.

Abbreviation lower := JsString.toLowerCase_latin.

(** A first message from user u1, answered upstream: the record is created
    with the two turns. *)
Lemma postChat_appends_exchange_witness :
  let out := {| faqFindOk := true; chatFindOk := true;
                upstream := fun _ => Some (textCompletion (js "Within 30 days."));
                saveOk := true; castOther := fun _ => None |} in
  let st := {| faqs := [refundPolicy]; chats := ∅ |} in
  let req := {| reqUserId := Some (js "u1"); reqMessage := Some (js "refund?") |} in
  let st' := {| faqs := [refundPolicy];
                chats := <[js "u1" :=
                  Chat.mk (js "u1")
                    [ Chat.mkMessage (js "user") (VString (js "refund?"));
                      Chat.mkMessage (js "ai") (VString (js "Within 30 days.")) ]]> ∅ |} in
  postChat lower (fun _ => Normal false) out st req
  = (Replied (VString (js "Within 30 days.")), st')
  /\ turnsOf st' (js "u1")
     = [ Chat.mkMessage (js "user") (VString (js "refund?"));
         Chat.mkMessage (js "ai") (VString (js "Within 30 days.")) ].
Proof.
  intros out st req st'.
  assert (Hrun : postChat lower (fun _ => Normal false) out st req
                 = (Replied (VString (js "Within 30 days.")), st'))
    by reflexivity.
  split; [exact Hrun|].
  destruct (postChat_appends_exchange lower (fun _ => Normal false) out st st' req _ Hrun)
    as (uid & message & stored & Huid & Hmsg & _ & Hsame & Hturns & _).
  injection Huid as <-. injection Hmsg as <-.
  rewrite Hturns, (Hsame _ eq_refl). reflexivity.
Defined.

(** C8, as stated, fails: when the first part of the upstream answer has the
    number 42 as its [text], the reply returned is the number 42, and the
    assistant turn stored holds the string 42, which the schema type of
    [content] casts it to: the stored content is not the returned reply. *)
Lemma numeric_reply_is_stored_as_text :
  let body :=
    VObject [(js "candidates",
              VArray [VObject [(js "content",
                VObject [(js "parts",
                  VArray [VObject [(js "text", VNumber (inject_Z 42))]])])]])] in
  let out := {| faqFindOk := true; chatFindOk := true;
                upstream := fun _ => Some body;
                saveOk := true;
                castOther := fun v =>
                  match v with
                  | VNumber q => if Qeq_bool q (inject_Z 42) then Some (js "42") else None
                  | _ => None
                  end |} in
  let st := {| faqs := [refundPolicy]; chats := ∅ |} in
  let req := {| reqUserId := Some (js "u1"); reqMessage := Some (js "how many?") |} in
  let st' := {| faqs := [refundPolicy];
                chats := <[js "u1" :=
                  Chat.mk (js "u1")
                    [ Chat.mkMessage (js "user") (VString (js "how many?"));
                      Chat.mkMessage (js "ai") (VString (js "42")) ]]> ∅ |} in
  postChat lower (fun _ => Normal false) out st req
  = (Replied (VNumber (inject_Z 42)), st')
  /\ turnsOf st' (js "u1")
     <> turnsOf st (js "u1")
        ++ [ Chat.mkMessage (js "user") (VString (js "how many?"));
             Chat.mkMessage (js "ai") (VNumber (inject_Z 42)) ].
Proof.
  intros body out st req st'. split; [reflexivity|].
  unfold turnsOf, st', st. cbn [chats].
  rewrite lookup_insert_eq, lookup_empty. cbn [Chat.messages app].
  intros H. discriminate H.
Qed.

End ExchangeExamples.

(** ** File upload *)

Section UploadFacts.

(** Bytes below 128 decode to themselves. *)
Lemma toString_ascii (bytes : list byte) :
  Forall (fun b => (Byte.to_N b < 128)%N) bytes ->
  Utf8.toString bytes = List.map Byte.to_N bytes.
Proof.
  unfold Utf8.toString.
  induction 1 as [|b rest Hb _ IH]; [reflexivity|].
  cbn [Utf8.decodeFrom Utf8.step Utf8.init Utf8.needed N.eqb].
  unfold Utf8.lead.
  replace (Byte.to_N b <=? 127)%N with true by (symmetry; apply N.leb_le; lia).
  cbn [app flat_map List.map]. rewrite IH. unfold Utf8.toUnits.
  replace (Byte.to_N b <? 65536)%N with true by (symmetry; apply N.ltb_lt; lia).
  reflexivity.
Qed.

Lemma text_mimetype_is_not_pdf (m : jsstring) :
  JsString.startsWith m (js "text/") = true ->
  JsString.eqb m (js "application/pdf") = false.
Proof.
  destruct m as [|c m]; [discriminate|].
  change (js "text/") with (116%N :: js "ext/").
  change (js "application/pdf") with (97%N :: js "pplication/pdf").
  cbn [JsString.startsWith JsString.eqb].
  destruct (N.eqb_spec 116 c) as [<-|Hc]; [reflexivity | discriminate].
Qed.

(** C9: an upload of a file of a text mimetype that is stored yields an
    entry whose content is the file's bytes decoded as UTF-8 (for bytes
    below 128, the very same characters), under the title given. *)
Theorem text_upload_round_trips
        (out : UploadOutside) (st st' : Store) (req : UploadRequest)
        (file : UploadedFile) (newFAQ : FAQ) :
  reqFile req = Some file ->
  JsString.startsWith (mimetype file) (js "text/") = true ->
  postUploadFileFaq out st req = (Created newFAQ, st') ->
  content newFAQ = Utf8.toString (buffer file)
  /\ reqTitle req = Some (title newFAQ)
  /\ faqs st' = faqs st ++ [newFAQ]
  /\ (Forall (fun b => (Byte.to_N b < 128)%N) (buffer file) ->
      content newFAQ = List.map Byte.to_N (buffer file)).
Proof.
  intros Hfile Htext Hrun. unfold postUploadFileFaq in Hrun. rewrite Hfile in Hrun.
  destruct (missing (reqTitle req)); [discriminate|]. simpl in Hrun.
  destruct (reqTitle req) as [t|]; [|discriminate].
  destruct (faqSaveOk out); [|discriminate].
  injection Hrun as <- <-.
  assert (Hcontent : extractContent out file = Utf8.toString (buffer file)).
  { unfold extractContent.
    rewrite (text_mimetype_is_not_pdf _ Htext), Htext. reflexivity. }
  simpl. rewrite Hcontent.
  repeat split. intros Hascii. apply toString_ascii, Hascii.
Qed.

End UploadFacts.

Module UploadExamples.

(** A plain-text file holding Hello world yields an entry whose content is
    Hello world. *)
Lemma text_upload_round_trips_witness :
  let file := {| originalname := js "hello.txt"; mimetype := js "text/plain";
                 buffer := list_byte_of_string "Hello world"; size := 11 |} in
  let req := {| reqTitle := Some (js "Greeting"); reqFile := Some file |} in
  let out := {| pdf := fun _ => PdfError (js "not a PDF"); faqSaveOk := true |} in
  let st := {| faqs := []; chats := ∅ |} in
  let newFAQ := mkFAQ (js "Greeting") (js "Hello world") in
  reqFile req = Some file
  /\ JsString.startsWith (mimetype file) (js "text/") = true
  /\ postUploadFileFaq out st req = (Created newFAQ, {| faqs := [newFAQ]; chats := ∅ |})
  /\ content newFAQ = Utf8.toString (buffer file)
  /\ content newFAQ = js "Hello world".
Proof.
  intros file req out st newFAQ.
  assert (Hrun : postUploadFileFaq out st req
                 = (Created newFAQ, {| faqs := [newFAQ]; chats := ∅ |}))
    by reflexivity.
  split; [reflexivity|]. split; [reflexivity|]. split; [exact Hrun|].
  split; [|reflexivity].
  exact (proj1 (text_upload_round_trips out st _ req file newFAQ
                  eq_refl eq_refl Hrun)).
Defined.

End UploadExamples.

(** * Further properties *)

(** ** More on strings and sorting *)

Module MoreStringFacts.
Import JsString.

Lemma includes_refl (s : jsstring) : includes s s = true.
Proof.
  apply JsStringFacts.includes_spec. exists [], []. rewrite app_nil_r. reflexivity.
Qed.

(** A string whose ends are not white space is its own trim. *)
Lemma trim_fixed (s : jsstring) :
  (forall c r, s = c :: r -> is_space c = false) ->
  (forall c r, s = r ++ [c] -> is_space c = false) ->
  trim s = s.
Proof.
  intros Hhd Hlast.
  assert (Hstart : forall u : jsstring,
             (forall c r, u = c :: r -> is_space c = false) -> trimStart u = u).
  { intros [|c r] Hu; [reflexivity|]. simpl. rewrite (Hu c r eq_refl). reflexivity. }
  unfold trim, trimEnd. rewrite (Hstart s Hhd).
  rewrite Hstart; [apply rev_involutive|].
  intros c r Hrev. apply (Hlast c (rev r)).
  rewrite <- (rev_involutive s), Hrev. reflexivity.
Qed.

Lemma trim_idempotent (s : jsstring) : trim (trim s) = trim s.
Proof.
  destruct (JsStringFacts.trim_spec s) as (a & b & _ & _ & _ & Hhd & Hlast).
  apply trim_fixed; assumption.
Qed.

(** Trimming keeps a property all code units have. *)
Lemma trim_Forall (P : N -> Prop) (s : jsstring) : Forall P s -> Forall P (trim s).
Proof.
  intros Hs. destruct (JsStringFacts.trim_spec s) as (a & b & Heq & _).
  rewrite Heq in Hs. apply Forall_app in Hs as [_ Hs].
  apply Forall_app in Hs as [Hs _]. exact Hs.
Qed.

Lemma split_ws_from_Forall (P : N -> Prop) (s cur : jsstring) (insep : bool) :
  Forall P cur -> Forall P s -> Forall (Forall P) (split_ws_from cur insep s).
Proof.
  intros Hcur Hs. revert cur insep Hcur.
  induction Hs as [|c s Hc _ IH]; intros cur insep Hcur; simpl.
  - constructor; [apply Forall_rev; exact Hcur | constructor].
  - destruct (is_space c).
    + destruct insep.
      * apply IH. constructor.
      * constructor; [apply Forall_rev; exact Hcur | apply IH; constructor].
    + apply IH. constructor; assumption.
Qed.

Lemma filter_all {A : Type} (p : A -> bool) (l : list A) :
  Forall (fun a => p a = true) l -> List.filter p l = l.
Proof.
  induction 1 as [|a l Ha _ IH]; simpl; [reflexivity|].
  rewrite Ha, IH. reflexivity.
Qed.

End MoreStringFacts.

Section MoreSortFacts.
Context {A : Type} (key : A -> Z).

(** A list already in order is left as it is. *)
Lemma sort_sorted_fixed (l : list A) :
  StronglySorted (notBelow key) l -> sort (desc key) l = l.
Proof.
  induction 1 as [|x l _ IH Hx]; simpl; [reflexivity|].
  rewrite IH. destruct Hx as [|y l Hy _]; simpl; [reflexivity|].
  unfold desc, notBelow in *.
  destruct (Z.leb_spec (key y - key x) 0); [reflexivity | lia].
Qed.

(** An element not below any other goes in front. *)
Lemma sort_insert_top (x : A) (l : list A) :
  Forall (fun z => key z <= key x) l -> sort_insert (desc key) x l = x :: l.
Proof.
  intros [|z rest Hz _]; simpl; [reflexivity|]. unfold desc.
  destruct (Z.leb_spec (key z - key x) 0); [reflexivity | lia].
Qed.

Lemma sort_insert_filter (p : A -> bool) (x : A) (l : list A) :
  StronglySorted (notBelow key) l ->
  p x = true ->
  List.filter p (sort_insert (desc key) x l)
  = sort_insert (desc key) x (List.filter p l).
Proof.
  intros Hl Hx. induction Hl as [|y l Hl IH Hy]; simpl.
  - rewrite Hx. reflexivity.
  - unfold desc at 1. destruct (Z.leb_spec (key y - key x) 0) as [Hle|Hgt].
    + change (List.filter p (x :: y :: l)
              = sort_insert (desc key) x (List.filter p (y :: l))).
      rewrite sort_insert_top.
      * simpl. rewrite Hx. reflexivity.
      * apply List.Forall_forall. intros z Hz. apply filter_In in Hz as [Hz _].
        destruct Hz as [<-|Hz]; [lia|].
        rewrite List.Forall_forall in Hy. specialize (Hy z Hz).
        unfold notBelow in Hy. lia.
    + simpl. destruct (p y); simpl.
      * unfold desc at 2.
        destruct (Z.leb_spec (key y - key x) 0); [lia|]. rewrite IH. reflexivity.
      * exact IH.
Qed.

(** Filtering before or after the sort gives the same list. *)
Lemma sort_filter (p : A -> bool) (l : list A) :
  sort (desc key) (List.filter p l) = List.filter p (sort (desc key) l).
Proof.
  induction l as [|x l IH]; simpl; [reflexivity|].
  destruct (p x) eqn:Hx; simpl.
  - rewrite IH. symmetry. apply sort_insert_filter; [apply sort_sorted | exact Hx].
  - rewrite IH. symmetry.
    generalize (sort (desc key) l) as m. induction m as [|y m IHm]; simpl.
    + rewrite Hx. reflexivity.
    + destruct (desc key x y <=? 0); simpl; rewrite ?Hx; [reflexivity|].
      rewrite IHm. reflexivity.
Qed.

(** In a list in order, the elements that pass an upward-closed test are an
    initial segment. *)
Lemma filter_upward_prefix (p : A -> bool) (l : list A) :
  StronglySorted (notBelow key) l ->
  (forall a b, key b <= key a -> p b = true -> p a = true) ->
  isPrefix (List.filter p l) l.
Proof.
  intros Hl Hup. induction Hl as [|x l _ [rest IH] Hx]; simpl.
  - exists []. reflexivity.
  - destruct (p x) eqn:Hpx.
    + exists rest. simpl. f_equal. exact IH.
    + exists (x :: l).
      replace (List.filter p l) with (@nil A); [reflexivity|].
      symmetry. clear IH. induction Hx as [|y l Hy _ IHl]; simpl; [reflexivity|].
      destruct (p y) eqn:Hpy; [|exact IHl].
      rewrite (Hup x y Hy Hpy) in Hpx. discriminate.
Qed.

Lemma firstn_prefix (n : nat) (l1 l2 : list A) :
  isPrefix l1 l2 -> isPrefix (firstn n l1) (firstn n l2).
Proof.
  intros [rest ->]. revert n. induction l1 as [|x l1 IH]; intros n; simpl.
  - exists (firstn n rest). rewrite firstn_nil. reflexivity.
  - destruct n; simpl.
    + exists []. reflexivity.
    + destruct (IH n) as [r Hr]. exists r. rewrite Hr. reflexivity.
Qed.

End MoreSortFacts.

(** ** More on the relevance scorer *)

Section MoreScorerFacts.
Variable toLowerCase : jsstring -> jsstring.

Lemma normalizeText_alphabet (text : jsstring) :
  Forall (fun c => JsString.is_word_or_space c = true)
         (normalizeText toLowerCase text).
Proof.
  unfold normalizeText. apply MoreStringFacts.trim_Forall.
  apply List.Forall_forall. intros c Hc. apply filter_In in Hc. apply Hc.
Qed.

(** X1: whatever the text, its normalized form holds only characters of
    [a-z0-9] and white space, and every query word taken from it has at
    least 3 characters, all of [a-z0-9]. *)
Theorem query_words_are_long_alphanumeric (query : jsstring) :
  Forall (fun c => JsString.is_word_or_space c = true)
         (normalizeText toLowerCase query)
  /\ Forall (fun w => (3 <= length w)%nat /\ Forall (fun c => is_alnum c = true) w)
            (queryWordsOf (normalizeText toLowerCase query)).
Proof.
  split; [apply normalizeText_alphabet|].
  unfold queryWordsOf. apply List.Forall_forall. intros w Hw.
  apply filter_In in Hw as [Hin Hlen]. split; [apply Nat.ltb_lt in Hlen; lia|].
  pose proof (JsStringFacts.split_ws_no_space (normalizeText toLowerCase query)) as Hns.
  pose proof (MoreStringFacts.split_ws_from_Forall _ _ [] false
                (List.Forall_nil _) (normalizeText_alphabet query)) as Hal.
  rewrite List.Forall_forall in Hns, Hal.
  specialize (Hns w Hin). specialize (Hal w Hin).
  rewrite List.Forall_forall in Hns, Hal. apply List.Forall_forall. intros c Hc.
  specialize (Hns c Hc). specialize (Hal c Hc).
  unfold JsString.is_word_or_space in Hal. rewrite Hns, orb_false_r in Hal.
  exact Hal.
Qed.

(** X2: normalizing is idempotent, as soon as lowercasing leaves a text of
    [a-z0-9] and white space as it is. *)
Theorem normalizeText_idempotent (text : jsstring) :
  (forall s, Forall (fun c => JsString.is_word_or_space c = true) s ->
             toLowerCase s = s) ->
  normalizeText toLowerCase (normalizeText toLowerCase text)
  = normalizeText toLowerCase text.
Proof.
  intros Hfix. pose proof (normalizeText_alphabet text) as Hal.
  unfold normalizeText at 1. rewrite (Hfix _ Hal).
  rewrite (MoreStringFacts.filter_all _ _ Hal).
  unfold normalizeText. apply MoreStringFacts.trim_idempotent.
Qed.

Lemma keywordPoints_bounds (nt nc : jsstring) (words : list jsstring) (acc : Z) :
  acc <= fold_left (wordStep nt nc) words acc <= acc + 2 * Z.of_nat (length words).
Proof.
  revert acc. induction words as [|w words IH]; intros acc; simpl; [lia|].
  specialize (IH (wordStep nt nc acc w)). unfold wordStep in *.
  destruct (JsString.includes nt w), (JsString.includes nc w); lia.
Qed.

Lemma substringPoints_bounds (query : jsstring) (f : FAQ) :
  0 <= substringPoints toLowerCase query f <= 11.
Proof.
  unfold substringPoints, bonus.
  repeat match goal with |- context [if ?b then _ else _] => destruct b end; lia.
Qed.

(** X3: a score is never negative, and never above twice the number of
    query words plus 11. *)
Theorem score_bounds (query : jsstring) (f : FAQ) :
  0 <= scoreOf toLowerCase query f
       <= 2 * Z.of_nat (length (queryWordsOf (normalizeText toLowerCase query))) + 11.
Proof.
  rewrite scoreOf_split.
  pose proof (keywordPoints_bounds
                (normalizeText toLowerCase (title f))
                (normalizeText toLowerCase (content f))
                (queryWordsOf (normalizeText toLowerCase query)) 0) as Hk.
  pose proof (substringPoints_bounds query f) as Hs.
  unfold keywordPoints. lia.
Qed.

Lemma reaches_integer (minScore : Q) (z : Z) :
  (0 < minScore)%Q -> (minScore <= 1)%Q ->
  Qle_bool minScore (inject_Z z) = Qle_bool 1 (inject_Z z).
Proof.
  intros Hpos Hle1. apply eq_true_iff_eq. rewrite !Qle_bool_iff. split.
  - intros Hm. change 1%Q with (inject_Z 1). rewrite <- Zle_Qle.
    assert (Hz : (inject_Z 0 < inject_Z z)%Q) by (eapply Qlt_le_trans; eassumption).
    rewrite <- Zlt_Qlt in Hz. lia.
  - intros H1. eapply Qle_trans; eassumption.
Qed.

Lemma defaultMinScore_range : (0 < defaultMinScore)%Q /\ (defaultMinScore <= 1)%Q.
Proof. split; unfold defaultMinScore, Qlt, Qle; simpl; lia. Qed.

(** X4: a threshold anywhere above 0 and up to 1 selects the same entries:
    the default 0.3 returns exactly what the threshold 1 returns. *)
Theorem thresholds_up_to_one_agree (query : jsstring) (faqs : list FAQ) (minScore : Q) :
  (0 < minScore)%Q -> (minScore <= 1)%Q ->
  findRelevantFaqs toLowerCase query faqs minScore
  = findRelevantFaqs toLowerCase query faqs 1.
Proof.
  intros Hpos Hle1. rewrite !findRelevantFaqs_ranked. do 2 f_equal.
  unfold passing. apply filter_ext. intros f. apply reaches_integer; assumption.
Qed.

(** X5: raising the threshold only cuts the result short: what the scorer
    returns for a threshold is an initial segment of what it returns for
    any lower threshold. *)
Theorem raising_threshold_truncates
        (query : jsstring) (faqs : list FAQ) (low high : Q) :
  (low <= high)%Q ->
  isPrefix (findRelevantFaqs toLowerCase query faqs high)
           (findRelevantFaqs toLowerCase query faqs low).
Proof.
  intros Hle. rewrite !findRelevantFaqs_ranked. apply firstn_prefix.
  unfold passing. rewrite !sort_filter.
  set (ranked := sort (desc (scoreOf toLowerCase query)) faqs).
  set (pl := fun f => Qle_bool low (inject_Z (scoreOf toLowerCase query f))).
  set (ph := fun f => Qle_bool high (inject_Z (scoreOf toLowerCase query f))).
  assert (Himp : forall f, ph f = true -> pl f = true).
  { intros f. unfold ph, pl. rewrite !Qle_bool_iff. intros H.
    eapply Qle_trans; eassumption. }
  assert (Hnest : List.filter ph ranked = List.filter ph (List.filter pl ranked)).
  { induction ranked as [|f l IH]; simpl; [reflexivity|].
    destruct (ph f) eqn:Hh.
    - rewrite (Himp f Hh). simpl. rewrite Hh, IH. reflexivity.
    - destruct (pl f); simpl; rewrite ?Hh; exact IH. }
  rewrite Hnest. apply (filter_upward_prefix (scoreOf toLowerCase query)).
  - unfold ranked. rewrite <- sort_filter. apply sort_sorted.
  - intros a b Hab. unfold ph. rewrite !Qle_bool_iff. intros Hb.
    eapply Qle_trans; [exact Hb|]. rewrite <- Zle_Qle. exact Hab.
Qed.

(** X6: scoring the returned entries again returns them unchanged. *)
Theorem findRelevantFaqs_idempotent (query : jsstring) (faqs : list FAQ) (minScore : Q) :
  findRelevantFaqs toLowerCase query
    (findRelevantFaqs toLowerCase query faqs minScore) minScore
  = findRelevantFaqs toLowerCase query faqs minScore.
Proof.
  set (returned := findRelevantFaqs toLowerCase query faqs minScore).
  assert (Hret : returned
                 = firstn 3 (sort (desc (scoreOf toLowerCase query))
                                  (passing toLowerCase query faqs minScore)))
    by apply findRelevantFaqs_ranked.
  assert (Hpass : passing toLowerCase query returned minScore = returned).
  { unfold passing. apply MoreStringFacts.filter_all.
    rewrite Hret. apply Forall_firstn_of.
    apply List.Forall_forall. intros f Hf.
    apply (Permutation_in _ (sort_perm _ _)) in Hf.
    unfold passing in Hf. apply filter_In in Hf. apply Hf. }
  assert (Hsorted : StronglySorted (notBelow (scoreOf toLowerCase query)) returned).
  { rewrite Hret. apply sorted_firstn, sort_sorted. }
  rewrite findRelevantFaqs_ranked, Hpass, (sort_sorted_fixed _ _ Hsorted).
  apply firstn_all2. rewrite Hret, length_firstn. lia.
Qed.

(** X7: every returned entry is an entry of the corpus, and with the
    default threshold its score is at least 1: some query word or some
    substring check matched it. *)
Theorem returned_entries_matched (query : jsstring) (faqs : list FAQ) (f : FAQ) :
  In f (findRelevantFaqs toLowerCase query faqs defaultMinScore) ->
  In f faqs
  /\ 1 <= scoreOf toLowerCase query f
  /\ (0 < keywordPoints toLowerCase query f
      \/ 0 < substringPoints toLowerCase query f).
Proof.
  rewrite findRelevantFaqs_ranked. intros Hf.
  assert (Hin : In f (passing toLowerCase query faqs defaultMinScore)).
  { apply (Permutation_in _ (sort_perm (desc (scoreOf toLowerCase query)) _)).
    revert Hf. generalize (sort (desc (scoreOf toLowerCase query))
                                (passing toLowerCase query faqs defaultMinScore)) as l.
    intros l. generalize 3%nat as n. intros n. revert l.
    induction n as [|n IH]; intros [|x l]; simpl; try tauto.
    intros [->|H]; [left; reflexivity | right; apply IH, H]. }
  unfold passing in Hin. apply filter_In in Hin as [Hfaqs Hreach].
  rewrite (reaches_integer defaultMinScore) in Hreach by apply defaultMinScore_range.
  apply Qle_bool_iff in Hreach. change 1%Q with (inject_Z 1) in Hreach.
  rewrite <- Zle_Qle in Hreach.
  split; [exact Hfaqs|]. split; [exact Hreach|].
  rewrite scoreOf_split in Hreach.
  pose proof (substringPoints_bounds query f).
  destruct (Z.ltb_spec 0 (keywordPoints toLowerCase query f)); [left; lia | right; lia].
Qed.

(** X8: an entry always reaches the default threshold for the query that
    is its own title (the raw title check alone gives 3), so it is returned
    whenever the corpus has at most 3 entries. *)
Theorem own_title_finds_entry (faqs : list FAQ) (f : FAQ) :
  In f faqs ->
  (length faqs <= 3)%nat ->
  3 <= scoreOf toLowerCase (title f) f
  /\ In f (findRelevantFaqs toLowerCase (title f) faqs defaultMinScore).
Proof.
  intros Hin Hlen.
  assert (Hscore : 3 <= scoreOf toLowerCase (title f) f).
  { rewrite scoreOf_split.
    pose proof (keywordPoints_bounds
                  (normalizeText toLowerCase (title f))
                  (normalizeText toLowerCase (content f))
                  (queryWordsOf (normalizeText toLowerCase (title f))) 0) as Hk.
    unfold keywordPoints, substringPoints.
    rewrite (MoreStringFacts.includes_refl (toLowerCase (title f))).
    change (bonus true 3) with 3. unfold bonus.
    repeat match goal with |- context [if ?b then _ else _] => destruct b end; lia. }
  split; [exact Hscore|].
  rewrite findRelevantFaqs_ranked.
  assert (Hpass : In f (passing toLowerCase (title f) faqs defaultMinScore)).
  { unfold passing. apply filter_In. split; [exact Hin|].
    apply Qle_bool_iff. eapply Qle_trans with (y := inject_Z 3).
    - unfold defaultMinScore. unfold Qle. simpl. lia.
    - rewrite <- Zle_Qle. exact Hscore. }
  assert (Hle : (length (passing toLowerCase (title f) faqs defaultMinScore) <= 3)%nat).
  { unfold passing. etransitivity; [apply filter_length_le | exact Hlen]. }
  rewrite firstn_all2 by (rewrite sort_length; exact Hle).
  apply (Permutation_in _ (Permutation_sym (sort_perm _ _))). exact Hpass.
Qed.

End MoreScorerFacts.

(** ** More on history trimming and the payload *)

Section MoreHistoryFacts.

Lemma isChatSender_inv (m : Chat.Message) :
  isChatSender m = true -> Chat.sender m = js "user" \/ Chat.sender m = js "ai".
Proof.
  unfold isChatSender. cbn [existsb]. rewrite orb_false_r, orb_true_iff.
  rewrite !JsStringFacts.eqb_eq. tauto.
Qed.

Lemma sliceLast_suffix {A : Type} (n : nat) (l : list A) :
  exists dropped, l = dropped ++ JsString.sliceLast n l.
Proof.
  exists (firstn (length l - n) l). symmetry. apply firstn_skipn.
Qed.

Lemma sliceLast_length {A : Type} (n : nat) (l : list A) :
  length (JsString.sliceLast n l) = Nat.min n (length l).
Proof. unfold JsString.sliceLast. rewrite length_skipn. lia. Qed.

Lemma trimHistory_cases (messages : list Chat.Message) :
  trimHistory messages = JsString.sliceLast 6 (List.filter isChatSender messages)
  \/ trimHistory messages = JsString.sliceLast 5 (List.filter isChatSender messages).
Proof. unfold trimHistory. destruct (_ && _); auto. Qed.

(** X9: whatever is stored, the kept history has at most 6 turns, all of
    sender user or ai, and they are the last turns of the stored ones of
    those senders. *)
Theorem trimHistory_shape (messages : list Chat.Message) :
  (length (trimHistory messages) <= 6)%nat
  /\ Forall (fun m => Chat.sender m = js "user" \/ Chat.sender m = js "ai")
            (trimHistory messages)
  /\ exists dropped,
       List.filter isChatSender messages = dropped ++ trimHistory messages.
Proof.
  assert (Hsuffix : exists dropped,
             List.filter isChatSender messages = dropped ++ trimHistory messages).
  { destruct (trimHistory_cases messages) as [-> | ->]; apply sliceLast_suffix. }
  split; [|split; [|exact Hsuffix]].
  - destruct (trimHistory_cases messages) as [-> | ->];
      rewrite sliceLast_length; lia.
  - destruct Hsuffix as [dropped Heq].
    assert (Hall : Forall (fun m => isChatSender m = true)
                          (List.filter isChatSender messages)).
    { apply List.Forall_forall. intros m Hm. apply filter_In in Hm. apply Hm. }
    rewrite Heq in Hall. apply Forall_app in Hall as [_ Hall].
    eapply Forall_impl; [exact Hall|]. intros m. apply isChatSender_inv.
Qed.

Lemma toContent_role (m : Chat.Message) :
  role (toContent m) = js "user" \/ role (toContent m) = js "model".
Proof. unfold toContent. simpl. destruct (JsString.eqb _ _); auto. Qed.

(** X10: whatever the record, the payload has at least 2 and at most 8
    messages, each with one part and the role user or model; the first
    holds the instruction, the last the query. *)
Theorem payload_shape (relevantFaqs : list FAQ) (chat : option Chat.t) (message : jsstring) :
  let sent := contents (buildPayload relevantFaqs (chatHistoryOf chat) message) in
  (2 <= length sent <= 8)%nat
  /\ Forall (fun c => (role c = js "user" \/ role c = js "model")
                      /\ length (parts c) = 1%nat) sent
  /\ hd_error sent = Some (userMessage (systemInstruction (faqContext relevantFaqs)))
  /\ List.last sent (userMessage []) = userMessage message.
Proof.
  intros sent.
  assert (Hlen : (length (chatHistoryOf chat) <= 6)%nat).
  { destruct chat as [c|]; simpl; [|lia].
    rewrite length_map. apply trimHistory_shape. }
  assert (Hroles : Forall (fun c => (role c = js "user" \/ role c = js "model")
                                    /\ length (parts c) = 1%nat)
                          (chatHistoryOf chat)).
  { destruct chat as [c|]; simpl; [|constructor].
    apply List.Forall_forall. intros x Hx. apply in_map_iff in Hx as (m & <- & _).
    split; [apply toContent_role | reflexivity]. }
  subst sent. unfold buildPayload. cbn [contents].
  split; [|split; [|split]].
  - simpl. rewrite length_app. simpl. lia.
  - constructor; [split; [left; reflexivity | reflexivity]|].
    apply Forall_app. split; [exact Hroles|].
    constructor; [split; [left; reflexivity | reflexivity] | constructor].
  - reflexivity.
  - rewrite app_comm_cons. apply List.last_last.
Qed.

Lemma exchangeLog_app (l : list Chat.Message) (m r : value) :
  exchangeLog l ->
  exchangeLog (l ++ [Chat.mkMessage (js "user") m; Chat.mkMessage (js "ai") r]).
Proof.
  induction 1 as [|m' r' rest _ IH]; simpl.
  - repeat constructor.
  - constructor. exact IH.
Qed.

Lemma exchangeLog_senders (l : list Chat.Message) :
  exchangeLog l ->
  Forall (fun m => Chat.sender m = js "user" \/ Chat.sender m = js "ai") l.
Proof.
  induction 1 as [|m r rest _ IH]; [constructor|].
  constructor; [left; reflexivity|].
  constructor; [right; reflexivity | exact IH].
Qed.

(** In a list of exchanges the turns at even places are from the user, the
    others from the assistant. *)
Lemma exchangeLog_nth (l : list Chat.Message) :
  exchangeLog l ->
  forall i m, nth_error l i = Some m ->
    Chat.sender m = if Nat.even i then js "user" else js "ai".
Proof.
  induction 1 as [|m0 r0 rest _ IH]; intros i m Hi.
  - destruct i; discriminate.
  - destruct i as [|[|i]]; simpl in Hi.
    + injection Hi as <-. reflexivity.
    + injection Hi as <-. reflexivity.
    + change (Nat.even (S (S i))) with (Nat.even i). apply IH, Hi.
Qed.

Lemma exchangeLog_even (l : list Chat.Message) :
  exchangeLog l -> Nat.even (length l) = true.
Proof. induction 1; simpl; auto. Qed.

Lemma exchangeLog_not_endsWithUser (l : list Chat.Message) :
  exchangeLog l -> ~ endsWithUser l.
Proof.
  intros Hlog (older & m & -> & Hm).
  pose proof (exchangeLog_even _ Hlog) as Heven.
  pose proof (exchangeLog_nth _ Hlog (length older) m) as Hnth.
  rewrite nth_error_app2, Nat.sub_diag in Hnth by lia.
  specialize (Hnth eq_refl).
  rewrite length_app in Heven. simpl in Heven.
  rewrite Nat.add_1_r, Nat.even_succ, <- Nat.negb_even in Heven.
  destruct (Nat.even (length older)); [discriminate|].
  rewrite Hm in Hnth. discriminate.
Qed.

(** X11: on a record made of exchanges (user turn, assistant turn, ...),
    which is what this route writes, the last turn is never from the user:
    exactly the last 5 turns are kept, and once there are 3 exchanges or
    more the kept history begins with an assistant turn. *)
Theorem exchange_log_keeps_five (messages : list Chat.Message) :
  exchangeLog messages ->
  trimHistory messages = JsString.sliceLast 5 messages
  /\ ((6 <= length messages)%nat ->
      exists r rest, trimHistory messages = Chat.mkMessage (js "ai") r :: rest
                     /\ length rest = 4%nat).
Proof.
  intros Hlog.
  assert (Htrim : trimHistory messages = JsString.sliceLast 5 messages).
  { unfold trimHistory.
    rewrite (filter_all_chat_senders _ (exchangeLog_senders _ Hlog)).
    destruct (_ && _) eqn:Hb; [|reflexivity].
    apply last_sender_test in Hb.
    exfalso. exact (exchangeLog_not_endsWithUser _ Hlog Hb). }
  split; [exact Htrim|]. intros Hlen. rewrite Htrim.
  pose proof (sliceLast_length 5 messages) as Hl.
  unfold JsString.sliceLast in *.
  destruct (skipn (length messages - 5) messages) as [|[s c] rest] eqn:Hskip;
    [cbn [length] in Hl; lia|].
  assert (Hnth : nth_error messages (length messages - 5) = Some (Chat.mkMessage s c)).
  { rewrite <- (firstn_skipn (length messages - 5) messages) at 1.
    rewrite nth_error_app2 by (rewrite length_firstn; lia).
    rewrite length_firstn, Hskip.
    replace (length messages - 5 - Nat.min (length messages - 5) (length messages))%nat
      with 0%nat by lia.
    reflexivity. }
  apply (exchangeLog_nth _ Hlog) in Hnth. simpl in Hnth.
  pose proof (exchangeLog_even _ Hlog) as Heven.
  assert (Hodd : Nat.even (length messages - 5) = false).
  { replace (length messages) with (length messages - 5 + 5)%nat in Heven by lia.
    rewrite Nat.even_add in Heven. simpl in Heven.
    destruct (Nat.even (length messages - 5)); [discriminate | reflexivity]. }
  rewrite Hodd in Hnth. subst s.
  exists c, rest. split; [reflexivity|]. cbn [length] in Hl. lia.
Qed.

Lemma join_contains (sep x : jsstring) (pieces : list jsstring) :
  In x pieces -> exists a b, JsString.join sep pieces = a ++ x ++ b.
Proof.
  induction pieces as [|p rest IH]; [contradiction|].
  intros [->|Hin].
  - destruct rest as [|q rest'].
    + exists [], []. simpl. rewrite app_nil_r. reflexivity.
    + exists [], (sep ++ JsString.join sep (q :: rest')). reflexivity.
  - destruct rest as [|q rest']; [contradiction|].
    destruct (IH Hin) as (a & b & Hab).
    exists (p ++ sep ++ a), b.
    change (JsString.join sep (p :: q :: rest'))
      with (p ++ sep ++ JsString.join sep (q :: rest')).
    rewrite Hab, <- !app_assoc. reflexivity.
Qed.

(** X12: no matched entry is left out of the prompt: for each of them, the
    instruction text contains its title and content as the Q:/A: entry. *)
Theorem matched_entry_is_in_prompt (relevantFaqs : list FAQ) (f : FAQ) :
  In f relevantFaqs ->
  JsString.includes (systemInstruction (faqContext relevantFaqs))
                    (js "Q: " ++ title f ++ nl ++ js "A: " ++ content f)
  = true.
Proof.
  intros Hin. apply JsStringFacts.includes_spec.
  destruct relevantFaqs as [|g rest]; [contradiction|].
  destruct (faqContext_some g rest) as [Hctx Htruthy].
  unfold systemInstruction. rewrite Htruthy, Hctx.
  destruct (join_contains faqSeparator (formatFaq f) (List.map formatFaq (g :: rest)))
    as (a & b & Hab); [apply in_map, Hin|].
  rewrite Hab.
  exists (instructionBlock ++ js "**Relevant FAQs:**" ++ nl ++ a), (b ++ nl ++ nl).
  unfold formatFaq. rewrite <- !app_assoc. reflexivity.
Qed.

End MoreHistoryFacts.

(** ** More on the route [POST /chat] *)

Section MoreChatRouteFacts.
Variable toLowerCase : jsstring -> jsstring.
Variable coercedPositive : value -> completion bool.

Lemma missing_false (field : option jsstring) :
  missing field = false -> exists s, field = Some s /\ JsString.truthy s = true.
Proof.
  destruct field as [s|]; simpl; [|discriminate].
  intros H. exists s. split; [reflexivity|]. destruct (JsString.truthy s); auto.
Qed.

(** How a request can end: with the 400 on a missing field, in the [catch]
    block with nothing written, or answered and written. *)
Lemma postChat_cases (out : Outside) (st st' : Store) (req : ChatRequest)
      (r : ChatResponse) :
  postChat toLowerCase coercedPositive out st req = (r, st') ->
  (r = BadRequest /\ st' = st
   /\ missing (reqUserId req) || missing (reqMessage req) = true)
  \/ (r = ServerError /\ st' = st
      /\ missing (reqUserId req) || missing (reqMessage req) = false)
  \/ exists uid message data reply stored,
       r = Replied reply
       /\ reqUserId req = Some uid /\ JsString.truthy uid = true
       /\ reqMessage req = Some message /\ JsString.truthy message = true
       /\ upstream out
            (buildPayload
               (findRelevantFaqs toLowerCase message (faqs st) defaultMinScore)
               (chatHistoryOf (chats st !! uid)) message) = Some data
       /\ extractReply coercedPositive data = Normal reply
       /\ schemaString out reply = Some stored
       /\ st' = {| faqs := faqs st;
                   chats := <[uid := appendExchange uid (chats st !! uid) message stored]>
                              (chats st) |}.
Proof.
  unfold postChat. intros Hrun.
  destruct (missing (reqUserId req) || missing (reqMessage req)) eqn:Hmiss.
  { injection Hrun as <- <-. left. auto. }
  right. apply orb_false_iff in Hmiss as [Hu Hm].
  apply missing_false in Hu as (uid & Huid & Hut).
  apply missing_false in Hm as (message & Hmsg & Hmt).
  rewrite Huid, Hmsg in Hrun.
  destruct (faqFindOk out); simpl in Hrun;
    [|injection Hrun as <- <-; left; auto].
  destruct (chatFindOk out); simpl in Hrun;
    [|injection Hrun as <- <-; left; auto].
  destruct (upstream out _) as [data|] eqn:Hup;
    [|injection Hrun as <- <-; left; auto].
  destruct (extractReply coercedPositive data) as [reply|] eqn:Hex;
    [|injection Hrun as <- <-; left; auto].
  destruct (schemaString out reply) as [stored|] eqn:Hcast;
    [|injection Hrun as <- <-; left; auto].
  destruct (saveOk out); [|injection Hrun as <- <-; left; auto].
  injection Hrun as <- <-. right.
  exists uid, message, data, reply, stored. repeat split; assumption.
Qed.

(** X13: a request whose userId or message is absent or empty is answered
    400 whatever the store and the upstream would do, and nothing else is
    answered 400. *)
Theorem postChat_rejects_exactly_missing_fields
        (out : Outside) (st : Store) (req : ChatRequest) :
  (missing (reqUserId req) || missing (reqMessage req) = true ->
   postChat toLowerCase coercedPositive out st req = (BadRequest, st))
  /\ (fst (postChat toLowerCase coercedPositive out st req) = BadRequest ->
      missing (reqUserId req) || missing (reqMessage req) = true).
Proof.
  split.
  - intros Hmiss. unfold postChat. rewrite Hmiss. reflexivity.
  - destruct (postChat toLowerCase coercedPositive out st req) as [r st'] eqn:Hrun.
    simpl. intros ->.
    apply postChat_cases in Hrun
      as [(_ & _ & H) | [(Hr & _) | (? & ? & ? & ? & ? & Hr & _)]];
      [exact H | discriminate | discriminate].
Qed.

(** X14: a request that is not answered with a reply writes nothing, and
    no request changes the FAQ entries or another user's record. *)
Theorem postChat_writes_only_on_reply
        (out : Outside) (st st' : Store) (req : ChatRequest) (r : ChatResponse) :
  postChat toLowerCase coercedPositive out st req = (r, st') ->
  faqs st' = faqs st
  /\ ((forall reply, r <> Replied reply) -> st' = st)
  /\ (forall other, reqUserId req <> Some other ->
                    chats st' !! other = chats st !! other).
Proof.
  intros Hrun.
  apply postChat_cases in Hrun
    as [(_ & -> & _) | [(_ & -> & _)
        | (uid & m & d & reply & stored & -> & Hu & _ & _ & _ & _ & _ & _ & ->)]];
    try (repeat split; reflexivity).
  split; [reflexivity|]. split.
  - intros Hno. exfalso. exact (Hno reply eq_refl).
  - intros other Hother. simpl. apply lookup_insert_ne. congruence.
Qed.

(** X15: records made of exchanges stay so: when every record of the store
    is a sequence of user turn, assistant turn, it is again after any
    request. *)
Theorem postChat_keeps_exchange_logs
        (out : Outside) (st st' : Store) (req : ChatRequest) (r : ChatResponse) :
  (forall uid c, chats st !! uid = Some c -> exchangeLog (Chat.messages c)) ->
  postChat toLowerCase coercedPositive out st req = (r, st') ->
  forall uid c, chats st' !! uid = Some c -> exchangeLog (Chat.messages c).
Proof.
  intros Hinv Hrun.
  apply postChat_cases in Hrun
    as [(_ & -> & _) | [(_ & -> & _)
        | (u & m & d & reply & stored & _ & _ & _ & _ & _ & _ & _ & _ & ->)]];
    try exact Hinv.
  intros uid c. simpl. rewrite lookup_insert. case_decide as Hu.
  - intros [= <-]. unfold appendExchange.
    destruct (chats st !! u) as [c0|] eqn:Hc0; simpl.
    + rewrite <- app_assoc. apply exchangeLog_app. exact (Hinv u c0 Hc0).
    + apply (exchangeLog_app [] _ _ log_empty).
  - apply Hinv.
Qed.

(** X16: an upstream body without candidates is not treated as a failure:
    the request is answered with the fixed text, and that text is recorded
    as the assistant's turn. *)
Theorem unusable_answer_is_recorded
        (out : Outside) (st : Store) (uid message : jsstring)
        (props : list (jsstring * value)) :
  JsString.truthy uid = true ->
  JsString.truthy message = true ->
  faqFindOk out = true -> chatFindOk out = true -> saveOk out = true ->
  (forall p, upstream out p = Some (VObject props)) ->
  Json.truthy (Json.lookup (js "candidates") props) = false ->
  exists st',
    postChat toLowerCase coercedPositive out st
             {| reqUserId := Some uid; reqMessage := Some message |}
    = (Replied (VString malformedReply), st')
    /\ turnsOf st' uid
       = turnsOf st uid
         ++ [ Chat.mkMessage (js "user") (VString message);
              Chat.mkMessage (js "ai") (VString malformedReply) ].
Proof.
  intros Hu Hm Hf Hc Hs Hup Hcand.
  eexists. unfold postChat. cbn [reqUserId reqMessage missing].
  rewrite Hu, Hm, Hf, Hc, Hup. cbn [negb orb].
  rewrite (extractReply_without_candidates coercedPositive props Hcand).
  cbn [schemaString]. rewrite Hs.
  split; [reflexivity|].
  unfold turnsOf. cbn [chats]. rewrite lookup_insert_eq.
  unfold appendExchange. destruct (chats st !! uid); simpl;
    rewrite <- ?app_assoc; reflexivity.
Qed.

(** X17: what is written is what the next request of the same user sends as
    history: after the first exchange of a user, the history of the next
    payload is that exchange, the message under the role user and, under
    the role model, the reply as it was stored (the reply itself when it is
    a string). *)
Theorem first_exchange_becomes_history
        (out : Outside) (st st' : Store) (req : ChatRequest) (reply : value)
        (uid message : jsstring) :
  reqUserId req = Some uid ->
  reqMessage req = Some message ->
  chats st !! uid = None ->
  postChat toLowerCase coercedPositive out st req = (Replied reply, st') ->
  exists stored,
    schemaString out reply = Some stored
    /\ (forall s, reply = VString s -> stored = s)
    /\ chatHistoryOf (chats st' !! uid)
       = [ {| role := js "user"; parts := [ {| text := VString message |} ] |};
           {| role := js "model"; parts := [ {| text := VString stored |} ] |} ].
Proof.
  intros Hu Hm Hnone Hrun.
  apply postChat_cases in Hrun
    as [(Hr & _) | [(Hr & _)
        | (u & m & d & r & stored & Hr & Hu' & _ & Hm' & _ & _ & _ & Hcast & ->)]];
    try discriminate.
  injection Hr as <-. rewrite Hu in Hu'. injection Hu' as <-.
  rewrite Hm in Hm'. injection Hm' as <-.
  exists stored. split; [exact Hcast|]. split.
  - intros s ->. simpl in Hcast. congruence.
  - cbn [chats]. rewrite lookup_insert_eq, Hnone. reflexivity.
Qed.

End MoreChatRouteFacts.

(** ** More on reply extraction and the [catch] block *)

Section MoreExtractionFacts.
Variable coercedPositive : value -> completion bool.

Lemma getProp_throws (v : value) (k : key) :
  Json.getProp v k = ThrowTypeError <-> nullish v = true.
Proof.
  destruct v; simpl; try (split; discriminate); try (split; reflexivity);
    destruct k; split; discriminate.
Qed.

Lemma truthy_not_nullish (v : value) : Json.truthy v = true -> nullish v = false.
Proof. destruct v; simpl; auto; discriminate. Qed.

Lemma getProp_of_truthy (v : value) (k : key) :
  Json.truthy v = true -> exists w, Json.getProp v k = Normal w.
Proof.
  intros Hv. destruct (Json.getProp v k) as [w|] eqn:Hg; [eauto|].
  apply getProp_throws in Hg. rewrite (truthy_not_nullish v Hv) in Hg. discriminate.
Qed.

Lemma positive_throws (n : value) :
  positive coercedPositive n = ThrowTypeError ->
  needsCoercion n = true /\ coercedPositive n = ThrowTypeError.
Proof. destruct n; simpl; try discriminate; auto. Qed.

(** X18: extraction has three outcomes only. It throws only when the
    conversion of a [length] that is a string, an array or an object throws
    in one of the two comparisons with 0, or when the first candidate, or
    the first part, is [null] or [undefined]; otherwise it gives the fixed
    text of the [else] branch, or the [text] of the first part of the
    first candidate, whatever that is. *)
Theorem extractReply_outcomes (data : value) :
  match extractReply coercedPositive data with
  | ThrowTypeError =>
      (exists n,
          (Json.getPath data [candidates; Length] = Normal n
           \/ Json.getPath data [candidates; Index 0; contentKey; partsKey; Length]
              = Normal n)
          /\ needsCoercion n = true
          /\ coercedPositive n = ThrowTypeError)
      \/ (exists c, Json.getPath data [candidates; Index 0] = Normal c
                    /\ nullish c = true)
      \/ (exists p,
            Json.getPath data [candidates; Index 0; contentKey; partsKey; Index 0]
            = Normal p
            /\ nullish p = true)
  | Normal reply =>
      reply = VString malformedReply
      \/ Json.getPath data [candidates; Index 0; contentKey; partsKey; Index 0; textKey]
         = Normal reply
  end.
Proof.
  unfold extractReply, hasCompletion, isTruthy, isPositive.
  cbn [Json.allOf Json.getPath Json.bind].
  destruct (Json.truthy data) eqn:Hd; [|left; reflexivity].
  destruct (getProp_of_truthy data candidates Hd) as [cs Hcs]. rewrite Hcs.
  cbn [Json.bind].
  destruct (Json.truthy cs) eqn:Htc; [|left; reflexivity].
  destruct (getProp_of_truthy cs Length Htc) as [n Hn]. rewrite Hn.
  cbn [Json.bind].
  destruct (positive coercedPositive n) as [pos|] eqn:Hpos; cbn [Json.bind].
  2:{ left. exists n. apply positive_throws in Hpos. split; [left; reflexivity | exact Hpos]. }
  destruct pos; [|left; reflexivity].
  destruct (getProp_of_truthy cs (Index 0) Htc) as [c0 Hc0]. rewrite Hc0.
  cbn [Json.bind].
  destruct (Json.getProp c0 contentKey) as [ct|] eqn:Hct; cbn [Json.bind].
  2:{ right. left. exists c0.
      split; [reflexivity | apply getProp_throws in Hct; exact Hct]. }
  destruct (Json.truthy ct) eqn:Htct; [|left; reflexivity].
  destruct (getProp_of_truthy ct partsKey Htct) as [ps Hps]. rewrite Hps.
  cbn [Json.bind].
  destruct (Json.truthy ps) eqn:Htps; [|left; reflexivity].
  destruct (getProp_of_truthy ps Length Htps) as [pn Hpn]. rewrite Hpn.
  cbn [Json.bind].
  destruct (positive coercedPositive pn) as [ppos|] eqn:Hppos; cbn [Json.bind].
  2:{ left. exists pn. apply positive_throws in Hppos.
      split; [right; reflexivity | exact Hppos]. }
  destruct ppos; [|left; reflexivity].
  destruct (getProp_of_truthy ps (Index 0) Htps) as [p0 Hp0]. rewrite Hp0.
  cbn [Json.bind].
  destruct (Json.getProp p0 textKey) as [t|] eqn:Ht.
  - right. reflexivity.
  - right. right. exists p0.
    split; [reflexivity | apply getProp_throws in Ht; exact Ht].
Qed.

(** X19: the [catch] block can itself throw, and only on an upstream answer
    of status 400: one whose body is [null] or [undefined], or whose
    [error] has a [message] that is no string and no array.  For every
    other error it picks an apology. *)
Theorem userFacingError_throws_only_on_400 (error : CaughtError) :
  userFacingError error = ThrowTypeError ->
  exists response,
    errResponse error = Some response
    /\ errStatus response = 400%N
    /\ (nullish (errData response) = true
        \/ exists e m,
             Json.getProp (errData response) (Named (js "error")) = Normal e
             /\ Json.truthy e = true
             /\ Json.getProp e (Named (js "message")) = Normal m
             /\ callIncludes m (js "safety") = ThrowTypeError).
Proof.
  unfold userFacingError. destruct (errResponse error) as [response|]; [|discriminate].
  intros Hthrow. exists response. split; [reflexivity|].
  unfold mentionsSafety in Hthrow.
  destruct (N.eqb_spec (errStatus response) 400) as [Hs|_]; [|discriminate].
  split; [exact Hs|].
  destruct (Json.getProp (errData response) (Named (js "error"))) as [e|] eqn:He.
  - right. cbn [Json.bind] in Hthrow.
    destruct (Json.truthy e) eqn:Hte; [|discriminate].
    destruct (getProp_of_truthy e (Named (js "message")) Hte) as [m Hm].
    rewrite Hm in Hthrow. cbn [Json.bind] in Hthrow.
    exists e, m. repeat split; try assumption.
    destruct (callIncludes m (js "safety")); [discriminate | reflexivity].
  - left. apply getProp_throws in He. exact He.
Qed.

End MoreExtractionFacts.

(** ** The routes that add FAQ entries *)

Section FaqRouteFacts.

(** X20: [POST /faqs] stores an entry exactly when title and content are
    both given and non-empty and the save succeeds; the entry stored is the
    one sent, added after the others. Any other request changes nothing,
    and no request touches the chat records. *)
Theorem postFaqs_outcomes (saveOk : bool) (st st' : Store) (req : FaqRequest)
        (r : FaqResponse) :
  postFaqs saveOk st req = (r, st') ->
  chats st' = chats st
  /\ match r with
     | FaqCreated newFAQ =>
         faqTitle req = Some (title newFAQ)
         /\ faqContent req = Some (content newFAQ)
         /\ title newFAQ <> [] /\ content newFAQ <> []
         /\ saveOk = true
         /\ faqs st' = faqs st ++ [newFAQ]
     | FaqBadRequest =>
         st' = st /\ missing (faqTitle req) || missing (faqContent req) = true
     | FaqServerError => st' = st /\ saveOk = false
     end.
Proof.
  unfold postFaqs. intros Hrun.
  destruct (missing (faqTitle req) || missing (faqContent req)) eqn:Hmiss.
  { injection Hrun as <- <-. auto. }
  apply orb_false_iff in Hmiss as [Ht Hc].
  apply missing_false in Ht as (t & Ht & Htt).
  apply missing_false in Hc as (c & Hc & Hct).
  rewrite Ht, Hc in Hrun. destruct saveOk; injection Hrun as <- <-; simpl.
  - split; [reflexivity|]. split; [exact Ht|]. split; [exact Hc|].
    split; [intros ->; discriminate|]. split; [intros ->; discriminate|].
    split; reflexivity.
  - auto.
Qed.

Lemma upload_cases (out : UploadOutside) (st st' : Store) (req : UploadRequest)
      (r : UploadResponse) :
  postUploadFileFaq out st req = (r, st') ->
  (r = UploadBadRequest /\ st' = st
   /\ (missing (reqTitle req) = true \/ reqFile req = None))
  \/ (r = UploadServerError /\ st' = st /\ faqSaveOk out = false)
  \/ exists t file,
       reqTitle req = Some t /\ JsString.truthy t = true
       /\ reqFile req = Some file
       /\ faqSaveOk out = true
       /\ r = Created {| title := t; content := extractContent out file |}
       /\ st' = {| faqs := faqs st ++ [ {| title := t; content := extractContent out file |} ];
                   chats := chats st |}.
Proof.
  unfold postUploadFileFaq. intros Hrun.
  destruct (missing (reqTitle req)) eqn:Hmiss; simpl in Hrun.
  { injection Hrun as <- <-. left. auto. }
  destruct (reqFile req) as [file|] eqn:Hfile.
  2:{ injection Hrun as <- <-. left. auto. }
  apply missing_false in Hmiss as (t & Ht & Htt). rewrite Ht in Hrun.
  destruct (faqSaveOk out); injection Hrun as <- <-.
  - right. right. exists t, file. repeat split; auto.
  - right. left. auto.
Qed.

(** X21: [POST /upload-file-faq] stores an entry only under a non-empty
    title and with a file, adds it after the others, and otherwise changes
    nothing; it never touches the chat records. *)
Theorem upload_outcomes (out : UploadOutside) (st st' : Store) (req : UploadRequest)
        (r : UploadResponse) :
  postUploadFileFaq out st req = (r, st') ->
  chats st' = chats st
  /\ match r with
     | Created newFAQ =>
         reqTitle req = Some (title newFAQ)
         /\ title newFAQ <> []
         /\ (exists file, reqFile req = Some file
                          /\ content newFAQ = extractContent out file)
         /\ faqs st' = faqs st ++ [newFAQ]
     | UploadBadRequest | UploadServerError => st' = st
     end.
Proof.
  intros Hrun.
  apply upload_cases in Hrun
    as [(-> & -> & _) | [(-> & -> & _) | (t & file & Ht & Htt & Hf & _ & -> & ->)]];
    try (split; reflexivity).
  split; [reflexivity|]. simpl.
  split; [exact Ht|]. split; [intros ->; discriminate|].
  split; [|reflexivity]. exists file. split; [exact Hf | reflexivity].
Qed.

(** X22: a PDF whose text cannot be extracted does not fail the upload: the
    entry is stored all the same, its content the bracketed notice that
    quotes the extraction error. *)
Theorem failed_pdf_is_stored_with_notice
        (out : UploadOutside) (st : Store) (t message : jsstring) (file : UploadedFile) :
  JsString.truthy t = true ->
  mimetype file = js "application/pdf" ->
  pdf out (buffer file) = PdfError message ->
  faqSaveOk out = true ->
  let newFAQ :=
    {| title := t;
       content := js "[Failed to extract text from PDF: " ++ message ++ js "]" |} in
  postUploadFileFaq out st {| reqTitle := Some t; reqFile := Some file |}
  = (Created newFAQ, {| faqs := faqs st ++ [newFAQ]; chats := chats st |}).
Proof.
  intros Ht Hmime Hpdf Hsave newFAQ.
  unfold postUploadFileFaq. cbn [reqTitle reqFile missing]. rewrite Ht, Hsave.
  cbn [negb orb]. subst newFAQ.
  unfold extractContent. rewrite Hmime, JsStringFacts.eqb_refl, Hpdf. reflexivity.
Qed.

(** X23: for a file that is neither a PDF nor of a text type, the content
    stored does not depend on the file's bytes nor on the PDF library: it
    is never empty, and two files of the same name, type and size give the
    same content. *)
Theorem other_types_store_placeholder
        (out1 out2 : UploadOutside) (f1 f2 : UploadedFile) :
  JsString.eqb (mimetype f1) (js "application/pdf") = false ->
  JsString.startsWith (mimetype f1) (js "text/") = false ->
  originalname f1 = originalname f2 ->
  mimetype f1 = mimetype f2 ->
  size f1 = size f2 ->
  extractContent out1 f1 = extractContent out2 f2
  /\ JsString.truthy (extractContent out1 f1) = true.
Proof.
  intros Hpdf Htext Hname Hmime Hsize.
  unfold extractContent. rewrite <- Hmime, Hpdf, Htext, <- Hname, <- Hsize.
  split; reflexivity.
Qed.

(** X24: no route stores an entry without a title: when every stored entry
    has a non-empty title, it is still so after a request to [POST /faqs],
    to [POST /upload-file-faq] or to [POST /chat]. *)
Theorem titles_stay_non_empty
        (toLowerCase : jsstring -> jsstring) (coercedPositive : value -> completion bool)
        (st : Store) :
  Forall (fun f => JsString.truthy (title f) = true) (faqs st) ->
  (forall saveOk req,
      Forall (fun f => JsString.truthy (title f) = true)
             (faqs (snd (postFaqs saveOk st req))))
  /\ (forall out req,
        Forall (fun f => JsString.truthy (title f) = true)
               (faqs (snd (postUploadFileFaq out st req))))
  /\ (forall out req,
        Forall (fun f => JsString.truthy (title f) = true)
               (faqs (snd (postChat toLowerCase coercedPositive out st req)))).
Proof.
  intros Hinv. split; [|split].
  - intros saveOk req. unfold postFaqs.
    destruct (missing (faqTitle req) || missing (faqContent req)) eqn:Hmiss;
      [exact Hinv|].
    apply orb_false_iff in Hmiss as [Ht Hc].
    apply missing_false in Ht as (t & Ht & Htt).
    apply missing_false in Hc as (c & Hc & _).
    rewrite Ht, Hc. destruct saveOk; [|exact Hinv].
    simpl. apply Forall_app. split; [exact Hinv|]. repeat constructor. exact Htt.
  - intros out req.
    destruct (postUploadFileFaq out st req) as [r st'] eqn:Hrun.
    apply upload_cases in Hrun
      as [(_ & -> & _) | [(_ & -> & _) | (t & file & _ & Htt & _ & _ & _ & ->)]];
      try exact Hinv.
    simpl. apply Forall_app. split; [exact Hinv|]. repeat constructor. exact Htt.
  - intros out req.
    destruct (postChat toLowerCase coercedPositive out st req) as [r st'] eqn:Hrun.
    apply postChat_cases in Hrun
      as [(_ & -> & _) | [(_ & -> & _)
          | (? & ? & ? & ? & ? & _ & _ & _ & _ & _ & _ & _ & _ & ->)]];
      exact Hinv.
Qed.

End FaqRouteFacts.

(** ** The callers and the routes together *)

Section CallerFacts.
Variable toLowerCase : jsstring -> jsstring.
Variable coercedPositive : value -> completion bool.

(** X25: [sendMessage] does nothing on an input that is empty or only white
    space; on any other input it adds exactly two messages, the user's with
    the trimmed input and then one of the assistant, clears the input and
    the typing flag, whatever the backend answers. *)
Theorem sendMessage_adds_two_or_nothing
        (post : ChatRequest -> AxiosResult) (s : ChatBoxState) :
  (JsString.trim (boxInput s) = [] -> sendMessage post s = s)
  /\ (JsString.trim (boxInput s) <> [] ->
      exists shown,
        sendMessage post s
        = {| boxMessages :=
               boxMessages s
               ++ [ Chat.mkMessage (js "user") (VString (JsString.trim (boxInput s)));
                    Chat.mkMessage (js "ai") shown ];
             boxInput := [];
             isTyping := false |}).
Proof.
  unfold sendMessage. split.
  - intros ->. reflexivity.
  - intros Hne. destruct (JsString.trim (boxInput s)) as [|c u] eqn:Htrim;
      [congruence|].
    cbn [JsString.truthy negb]. eexists. rewrite <- app_assoc. reflexivity.
Qed.

(** X26: a message [ChatBox] sends is never answered 400: the request it
    posts has a user id and a non-empty message. *)
Theorem chatbox_request_passes_validation
        (out : Outside) (st : Store) (input : jsstring) :
  JsString.trim input <> [] ->
  fst (postChat toLowerCase coercedPositive out st
                (chatRequestOf (JsString.trim input)))
  <> BadRequest.
Proof.
  intros Hne.
  destruct (postChat toLowerCase coercedPositive out st
                     (chatRequestOf (JsString.trim input))) as [r st'] eqn:Hrun.
  simpl. intros ->.
  apply postChat_cases in Hrun
    as [(_ & _ & Hmiss) | [(Hr & _) | (? & ? & ? & ? & ? & Hr & _)]];
    try discriminate.
  unfold chatRequestOf in Hmiss. cbn [reqUserId reqMessage missing] in Hmiss.
  destruct (JsString.trim input); [congruence | discriminate].
Qed.

(** X27: what [ChatBox] shows and what is stored. When the route answers
    with a reply, the chat shows the user's message and that reply, and the
    two turns added to the user's record are the user's message and the
    reply as the schema stores it, which is the reply shown whenever it is a
    string. When the route answers 500, the chat shows the user's message
    and the fixed Oops text, whatever apology the route chose, and the
    record is unchanged. *)
Theorem chatbox_shows_what_is_stored
        (out : Outside) (st : Store) (s : ChatBoxState) :
  JsString.trim (boxInput s) <> [] ->
  let userMessage := JsString.trim (boxInput s) in
  let '(r, st') :=
    postChat toLowerCase coercedPositive out st (chatRequestOf userMessage) in
  exists shown,
    boxMessages (sendMessage (chatBackend toLowerCase coercedPositive out st) s)
    = boxMessages s
      ++ [ Chat.mkMessage (js "user") (VString userMessage);
           Chat.mkMessage (js "ai") shown ]
    /\ ((r = Replied shown
         /\ exists stored,
              schemaString out shown = Some stored
              /\ (forall t, shown = VString t -> stored = t)
              /\ turnsOf st' demoUserId
                 = turnsOf st demoUserId
                   ++ [ Chat.mkMessage (js "user") (VString userMessage);
                        Chat.mkMessage (js "ai") (VString stored) ])
        \/ (r = ServerError /\ shown = VString oops /\ st' = st)).
Proof.
  intros Hne userMessage. subst userMessage.
  unfold sendMessage, chatBackend.
  destruct (JsString.trim (boxInput s)) as [|c u] eqn:Htrim; [congruence|].
  destruct (postChat toLowerCase coercedPositive out st (chatRequestOf (c :: u)))
    as [r st'] eqn:Hrun.
  cbn [JsString.truthy negb fst boxMessages].
  pose proof Hrun as Hcases.
  apply postChat_cases in Hcases
    as [(_ & _ & Hmiss) | [(-> & -> & _)
        | (uid & m & d & reply & stored & -> & Hu & _ & Hm & _ & _ & _ & Hcast & ->)]].
  - discriminate Hmiss.
  - exists (VString oops). rewrite <- app_assoc. split; [reflexivity|].
    right. auto.
  - exists reply. cbn [chatOverHttp Json.getProp Json.lookup].
    rewrite JsStringFacts.eqb_refl. rewrite <- app_assoc. split; [reflexivity|].
    left. split; [reflexivity|]. exists stored. split; [exact Hcast|]. split.
    + intros t ->. simpl in Hcast. congruence.
    + injection Hu as <-. injection Hm as <-.
      unfold turnsOf. cbn [chats]. rewrite lookup_insert_eq.
      unfold appendExchange. destruct (chats st !! demoUserId); simpl;
        rewrite <- ?app_assoc; reflexivity.
Qed.

End CallerFacts.

Section AdminFacts.

Lemma trim_truthy (s : jsstring) :
  JsString.truthy (JsString.trim s) = true -> JsString.truthy s = true.
Proof.
  destruct s; [|reflexivity]. discriminate.
Qed.

Lemma chooseUpload_request (s : AdminState) (r : AdminRequest) :
  chooseUpload s = inr r ->
  JsString.truthy (adminTitle s) = true
  /\ ((exists file, adminFile s = Some file
                    /\ r = FileFaq {| reqTitle := Some (adminTitle s);
                                      reqFile := Some file |})
      \/ (adminFile s = None
          /\ JsString.truthy (adminContent s) = true
          /\ r = TextFaq {| faqTitle := Some (adminTitle s);
                            faqContent := Some (adminContent s) |})).
Proof.
  unfold chooseUpload.
  destruct (JsString.truthy (JsString.trim (adminTitle s))) eqn:Ht;
    cbn [negb]; [|discriminate].
  apply trim_truthy in Ht.
  destruct (adminFile s) as [file|].
  - rewrite andb_false_r. intros [= <-]. split; [exact Ht|]. left. eauto.
  - rewrite andb_true_r.
    destruct (JsString.truthy (JsString.trim (adminContent s))) eqn:Hc;
      cbn [negb]; [|discriminate].
    apply trim_truthy in Hc. intros [= <-]. split; [exact Ht|]. right. auto.
Qed.

(** X28: a request [AdminUpload] posts is never answered 400, and its
    fields are cleared exactly when the entry was stored: on a 201 the
    fields are cleared and the store has one more entry, under the title
    typed; on a 500 the fields are kept and the store is unchanged. *)
Theorem admin_upload_clears_on_store
        (pdfOut : UploadOutside) (saveOk : bool) (st : Store)
        (s : AdminState) (r : AdminRequest) :
  chooseUpload s = inr r ->
  let '(answer, st') := adminBackend pdfOut saveOk st r in
  (fst answer = 201%N
   /\ afterUpload s answer = {| adminTitle := []; adminContent := []; adminFile := None |}
   /\ exists newFAQ, faqs st' = faqs st ++ [newFAQ] /\ title newFAQ = adminTitle s)
  \/ (fst answer = 500%N /\ afterUpload s answer = s /\ st' = st).
Proof.
  intros Hreq. apply chooseUpload_request in Hreq as [Ht [(file & Hf & ->) | (Hf & Hc & ->)]].
  - unfold adminBackend, postUploadFileFaq.
    cbn [reqTitle reqFile missing faqSaveOk]. rewrite Ht. cbn [negb orb].
    destruct saveOk; cbn [uploadAnswer].
    + left. split; [reflexivity|]. split; [reflexivity|]. eexists. split; reflexivity.
    + right. auto.
  - unfold adminBackend, postFaqs.
    cbn [faqTitle faqContent missing]. rewrite Ht, Hc. cbn [negb orb].
    destruct saveOk; cbn [faqAnswer].
    + left. split; [reflexivity|]. split; [reflexivity|]. eexists. split; reflexivity.
    + right. auto.
Qed.

End AdminFacts.

(** ** The further properties on concrete inputs *)

Module ExtraExamples.

Abbreviation lower := JsString.toLowerCase_latin.
Abbreviation noCoercion := (fun _ : value => @Normal bool false).

Lemma latin_fixes_normalized (s : jsstring) :
  Forall (fun c => JsString.is_word_or_space c = true) s -> lower s = s.
Proof.
  induction 1 as [|c s Hc _ IH]; [reflexivity|].
  unfold JsString.toLowerCase_latin in *. simpl. rewrite IH. f_equal.
  unfold JsString.lower_unit.
  destruct ((65 <=? c) && (c <=? 90))%N eqn:Hup; [|reflexivity].
  exfalso. apply andb_true_iff in Hup as [H1 H2].
  apply N.leb_le in H1, H2.
  unfold JsString.is_word_or_space, JsString.is_space in Hc.
  repeat (rewrite ?orb_true_iff, ?andb_true_iff, ?N.leb_le, ?N.eqb_eq in Hc).
  lia.
Qed.

Lemma normalizeText_idempotent_witness :
  (forall s, Forall (fun c => JsString.is_word_or_space c = true) s -> lower s = s)
  /\ normalizeText lower (normalizeText lower (js "  What's your Refund-Policy? "))
     = normalizeText lower (js "  What's your Refund-Policy? ").
Proof.
  split; [exact latin_fixes_normalized|].
  apply (normalizeText_idempotent lower _ latin_fixes_normalized).
Defined.

Lemma thresholds_up_to_one_agree_witness :
  (0 < defaultMinScore)%Q /\ (defaultMinScore <= 1)%Q
  /\ findRelevantFaqs lower (js "refund") [refundPolicy] defaultMinScore
     = findRelevantFaqs lower (js "refund") [refundPolicy] 1.
Proof.
  split; [apply defaultMinScore_range|]. split; [apply defaultMinScore_range|].
  apply (thresholds_up_to_one_agree lower); apply defaultMinScore_range.
Defined.

Lemma raising_threshold_truncates_witness :
  (defaultMinScore <= 6)%Q
  /\ isPrefix (findRelevantFaqs lower (js "refund")
                 [refundPolicy; mkFAQ (js "Refund") (js "See the refund policy")] 6)
              (findRelevantFaqs lower (js "refund")
                 [refundPolicy; mkFAQ (js "Refund") (js "See the refund policy")]
                 defaultMinScore).
Proof.
  assert (Hle : (defaultMinScore <= 6)%Q)
    by (unfold defaultMinScore, Qle; simpl; lia).
  split; [exact Hle|].
  apply (raising_threshold_truncates lower), Hle.
Defined.

Lemma returned_entries_matched_witness :
  In refundPolicy (findRelevantFaqs lower (js "refund") [refundPolicy] defaultMinScore)
  /\ In refundPolicy [refundPolicy]
  /\ 1 <= scoreOf lower (js "refund") refundPolicy.
Proof.
  assert (Hin : In refundPolicy
                   (findRelevantFaqs lower (js "refund") [refundPolicy] defaultMinScore))
    by (left; reflexivity).
  split; [exact Hin|].
  destruct (returned_entries_matched lower _ _ _ Hin) as (H1 & H2 & _).
  split; assumption.
Defined.

Lemma own_title_finds_entry_witness :
  In refundPolicy [refundPolicy]
  /\ (length [refundPolicy] <= 3)%nat
  /\ In refundPolicy
        (findRelevantFaqs lower (title refundPolicy) [refundPolicy] defaultMinScore).
Proof.
  assert (Hin : In refundPolicy [refundPolicy]) by (left; reflexivity).
  assert (Hlen : (length [refundPolicy] <= 3)%nat) by (simpl; lia).
  split; [exact Hin|]. split; [exact Hlen|].
  exact (proj2 (own_title_finds_entry lower [refundPolicy] refundPolicy Hin Hlen)).
Defined.

Abbreviation user t := (Chat.mkMessage (js "user") (VString (js t))).
Abbreviation ai t := (Chat.mkMessage (js "ai") (VString (js t))).

Lemma exchange_log_keeps_five_witness :
  let turns := [user "q1"; ai "a1"; user "q2"; ai "a2"; user "q3"; ai "a3"] in
  exchangeLog turns
  /\ trimHistory turns = [ai "a1"; user "q2"; ai "a2"; user "q3"; ai "a3"].
Proof.
  intros turns.
  assert (Hlog : exchangeLog turns) by (repeat constructor).
  split; [exact Hlog|].
  rewrite (proj1 (exchange_log_keeps_five turns Hlog)). reflexivity.
Defined.

Lemma matched_entry_is_in_prompt_witness :
  In refundPolicy [refundPolicy]
  /\ JsString.includes (systemInstruction (faqContext [refundPolicy]))
       (js "Q: " ++ title refundPolicy ++ nl ++ js "A: " ++ content refundPolicy)
     = true.
Proof.
  assert (Hin : In refundPolicy [refundPolicy]) by (left; reflexivity).
  split; [exact Hin|]. exact (matched_entry_is_in_prompt [refundPolicy] refundPolicy Hin).
Defined.

End ExtraExamples.

Module RouteExamples.

Abbreviation lower := JsString.toLowerCase_latin.
Abbreviation noCoercion := (fun _ : value => @Normal bool false).
Abbreviation user t := (Chat.mkMessage (js "user") (VString (js t))).
Abbreviation ai t := (Chat.mkMessage (js "ai") (VString (js t))).

(** The collaborators all succeed and the upstream answers [t]. *)
Abbreviation answering t :=
  {| faqFindOk := true; chatFindOk := true;
     upstream := fun _ => Some (textCompletion (js t)); saveOk := true;
     castOther := fun _ => None |}.

Abbreviation emptyStore := {| faqs := [refundPolicy]; chats := ∅ |}.
Abbreviation hello := {| reqUserId := Some (js "u1"); reqMessage := Some (js "hello") |}.
Abbreviation afterHello :=
  {| faqs := [refundPolicy];
     chats := <[js "u1" := Chat.mk (js "u1") [user "hello"; ai "hi"]]> ∅ |}.

Lemma hello_run :
  postChat lower noCoercion (answering "hi") emptyStore hello
  = (Replied (VString (js "hi")), afterHello).
Proof. reflexivity. Qed.

Lemma postChat_writes_only_on_reply_witness :
  postChat lower noCoercion (answering "hi") emptyStore hello
  = (Replied (VString (js "hi")), afterHello)
  /\ faqs afterHello = faqs emptyStore
  /\ chats afterHello !! js "u2" = chats emptyStore !! js "u2".
Proof.
  split; [exact hello_run|].
  destruct (postChat_writes_only_on_reply lower noCoercion _ _ _ _ _ hello_run)
    as (Hfaqs & _ & Hother).
  split; [exact Hfaqs|]. apply Hother. discriminate.
Defined.

Lemma postChat_keeps_exchange_logs_witness :
  (forall uid c, chats emptyStore !! uid = Some c -> exchangeLog (Chat.messages c))
  /\ postChat lower noCoercion (answering "hi") emptyStore hello
     = (Replied (VString (js "hi")), afterHello)
  /\ exchangeLog [user "hello"; ai "hi"].
Proof.
  assert (Hinv : forall uid c, chats emptyStore !! uid = Some c ->
                               exchangeLog (Chat.messages c)).
  { intros uid c. cbn [chats]. rewrite lookup_empty. discriminate. }
  split; [exact Hinv|]. split; [exact hello_run|].
  apply (postChat_keeps_exchange_logs lower noCoercion _ _ _ _ _ Hinv hello_run
           (js "u1") (Chat.mk (js "u1") [user "hello"; ai "hi"])).
  cbn [chats]. apply lookup_insert_eq.
Defined.

Lemma unusable_answer_is_recorded_witness :
  let out := {| faqFindOk := true; chatFindOk := true;
                upstream := fun _ => Some (VObject [(js "promptFeedback", VObject [])]);
                saveOk := true; castOther := fun _ => None |} in
  exists st',
    postChat lower noCoercion out emptyStore hello
    = (Replied (VString malformedReply), st')
    /\ turnsOf st' (js "u1")
       = [ user "hello"; Chat.mkMessage (js "ai") (VString malformedReply) ].
Proof.
  intros out.
  destruct (unusable_answer_is_recorded lower noCoercion out emptyStore
              (js "u1") (js "hello") [(js "promptFeedback", VObject [])]
              eq_refl eq_refl eq_refl eq_refl eq_refl (fun _ => eq_refl) eq_refl)
    as (st' & Hrun & Hturns).
  exists st'. split; [exact Hrun|]. rewrite Hturns. reflexivity.
Defined.

Lemma first_exchange_becomes_history_witness :
  reqUserId hello = Some (js "u1")
  /\ reqMessage hello = Some (js "hello")
  /\ chats emptyStore !! js "u1" = None
  /\ postChat lower noCoercion (answering "hi") emptyStore hello
     = (Replied (VString (js "hi")), afterHello)
  /\ chatHistoryOf (chats afterHello !! js "u1")
     = [ {| role := js "user"; parts := [ {| text := VString (js "hello") |} ] |};
         {| role := js "model"; parts := [ {| text := VString (js "hi") |} ] |} ].
Proof.
  assert (Hnone : chats emptyStore !! js "u1" = None) by apply lookup_empty.
  split; [reflexivity|]. split; [reflexivity|]. split; [exact Hnone|].
  split; [exact hello_run|].
  destruct (first_exchange_becomes_history lower noCoercion (answering "hi")
              emptyStore afterHello hello (VString (js "hi")) (js "u1") (js "hello")
              eq_refl eq_refl Hnone hello_run) as (stored & _ & Hsame & Hhist).
  rewrite Hhist, (Hsame _ eq_refl). reflexivity.
Defined.

Lemma userFacingError_throws_only_on_400_witness :
  let error := {| errResponse := Some {| errStatus := 400; errData := VString (js "Bad Request") |};
                  errCode := Some (js "ERR_BAD_REQUEST");
                  errMessage := js "Request failed with status code 400" |} in
  userFacingError error = Normal badRequestApology
  /\ userFacingError
       {| errResponse := Some {| errStatus := 400;
                                 errData := VObject [(js "error", VString (js "blocked"))] |};
          errCode := None; errMessage := [] |}
     = ThrowTypeError
  /\ exists response,
       errResponse
         {| errResponse := Some {| errStatus := 400;
                                   errData := VObject [(js "error", VString (js "blocked"))] |};
            errCode := None; errMessage := [] |}
       = Some response
       /\ errStatus response = 400%N.
Proof.
  intros error. split; [reflexivity|].
  assert (Hthrow : userFacingError
                     {| errResponse := Some {| errStatus := 400;
                          errData := VObject [(js "error", VString (js "blocked"))] |};
                        errCode := None; errMessage := [] |}
                   = ThrowTypeError) by reflexivity.
  split; [exact Hthrow|].
  destruct (userFacingError_throws_only_on_400 _ Hthrow) as (response & Hr & Hs & _).
  exists response. split; assumption.
Defined.

Lemma postFaqs_outcomes_witness :
  let req := {| faqTitle := Some (js "Hours"); faqContent := Some (js "9 to 5") |} in
  let newFAQ := mkFAQ (js "Hours") (js "9 to 5") in
  postFaqs true emptyStore req
  = (FaqCreated newFAQ, {| faqs := [refundPolicy; newFAQ]; chats := ∅ |})
  /\ faqs {| faqs := [refundPolicy; newFAQ]; chats := ∅ |}
     = faqs emptyStore ++ [newFAQ].
Proof.
  intros req newFAQ.
  assert (Hrun : postFaqs true emptyStore req
                 = (FaqCreated newFAQ, {| faqs := [refundPolicy; newFAQ]; chats := ∅ |}))
    by reflexivity.
  split; [exact Hrun|].
  destruct (postFaqs_outcomes _ _ _ _ _ Hrun) as (_ & _ & _ & _ & _ & _ & Hfaqs).
  exact Hfaqs.
Defined.

Abbreviation picture :=
  {| originalname := js "logo.png"; mimetype := js "image/png";
     buffer := [x89; x50; x4e; x47]; size := 4 |}.

Abbreviation brokenPdf :=
  {| originalname := js "terms.pdf"; mimetype := js "application/pdf";
     buffer := [x25; x50; x44; x46]; size := 4 |}.

Abbreviation failingPdf :=
  {| pdf := fun _ => PdfError (js "Invalid PDF structure"); faqSaveOk := true |}.

Lemma upload_outcomes_witness :
  let req := {| reqTitle := Some (js "Logo"); reqFile := Some picture |} in
  let newFAQ := mkFAQ (js "Logo")
                  (js "[File uploaded: logo.png, Type: image/png, Size: 4 bytes]") in
  postUploadFileFaq failingPdf emptyStore req
  = (Created newFAQ, {| faqs := [refundPolicy; newFAQ]; chats := ∅ |})
  /\ chats {| faqs := [refundPolicy; newFAQ]; chats := ∅ |} = chats emptyStore.
Proof.
  intros req newFAQ.
  assert (Hrun : postUploadFileFaq failingPdf emptyStore req
                 = (Created newFAQ, {| faqs := [refundPolicy; newFAQ]; chats := ∅ |}))
    by reflexivity.
  split; [exact Hrun|].
  exact (proj1 (upload_outcomes _ _ _ _ _ Hrun)).
Defined.

Lemma failed_pdf_is_stored_with_notice_witness :
  JsString.truthy (js "Terms") = true
  /\ mimetype brokenPdf = js "application/pdf"
  /\ pdf failingPdf (buffer brokenPdf) = PdfError (js "Invalid PDF structure")
  /\ faqSaveOk failingPdf = true
  /\ fst (postUploadFileFaq failingPdf emptyStore
            {| reqTitle := Some (js "Terms"); reqFile := Some brokenPdf |})
     = Created (mkFAQ (js "Terms")
                      (js "[Failed to extract text from PDF: Invalid PDF structure]")).
Proof.
  split; [reflexivity|]. split; [reflexivity|]. split; [reflexivity|].
  split; [reflexivity|].
  rewrite (failed_pdf_is_stored_with_notice failingPdf emptyStore (js "Terms")
             (js "Invalid PDF structure") brokenPdf eq_refl eq_refl eq_refl eq_refl).
  reflexivity.
Defined.

Lemma other_types_store_placeholder_witness :
  let other := {| originalname := js "logo.png"; mimetype := js "image/png";
                  buffer := []; size := 4 |} in
  JsString.eqb (mimetype picture) (js "application/pdf") = false
  /\ JsString.startsWith (mimetype picture) (js "text/") = false
  /\ extractContent failingPdf picture
     = extractContent {| pdf := fun _ => PdfText []; faqSaveOk := false |} other.
Proof.
  intros other. split; [reflexivity|]. split; [reflexivity|].
  exact (proj1 (other_types_store_placeholder failingPdf
                  {| pdf := fun _ => PdfText []; faqSaveOk := false |}
                  picture other eq_refl eq_refl eq_refl eq_refl eq_refl)).
Defined.

Lemma titles_stay_non_empty_witness :
  Forall (fun f => JsString.truthy (title f) = true) (faqs emptyStore)
  /\ Forall (fun f => JsString.truthy (title f) = true)
            (faqs (snd (postFaqs true emptyStore
                          {| faqTitle := Some (js "Hours");
                             faqContent := Some (js "9 to 5") |}))).
Proof.
  assert (Hinv : Forall (fun f => JsString.truthy (title f) = true) (faqs emptyStore))
    by (repeat constructor).
  split; [exact Hinv|].
  apply (proj1 (titles_stay_non_empty lower noCoercion emptyStore Hinv)).
Defined.

Lemma chatbox_request_passes_validation_witness :
  JsString.trim (js "  hello ") <> []
  /\ fst (postChat lower noCoercion (answering "hi") emptyStore
                   (chatRequestOf (JsString.trim (js "  hello "))))
     <> BadRequest.
Proof.
  assert (Hne : JsString.trim (js "  hello ") <> []) by discriminate.
  split; [exact Hne|].
  exact (chatbox_request_passes_validation lower noCoercion _ _ _ Hne).
Defined.

Lemma chatbox_shows_what_is_stored_witness :
  let s := {| boxMessages := []; boxInput := js "  hello "; isTyping := false |} in
  JsString.trim (boxInput s) <> []
  /\ exists shown,
       boxMessages (sendMessage (chatBackend lower noCoercion (answering "hi") emptyStore) s)
       = [ user "hello"; Chat.mkMessage (js "ai") shown ].
Proof.
  intros s.
  assert (Hne : JsString.trim (boxInput s) <> []) by discriminate.
  split; [exact Hne|].
  pose proof (chatbox_shows_what_is_stored lower noCoercion
                (answering "hi") emptyStore s Hne) as H.
  cbv zeta in H.
  destruct (postChat lower noCoercion (answering "hi") emptyStore
                     (chatRequestOf (JsString.trim (boxInput s)))) as [r st'].
  destruct H as (shown & Hshown & _). exists shown. exact Hshown.
Defined.

Lemma admin_upload_clears_on_store_witness :
  let s := {| adminTitle := js "Hours"; adminContent := js "9 to 5"; adminFile := None |} in
  let r := TextFaq {| faqTitle := Some (js "Hours"); faqContent := Some (js "9 to 5") |} in
  chooseUpload s = inr r
  /\ afterUpload s (fst (adminBackend failingPdf true emptyStore r))
     = {| adminTitle := []; adminContent := []; adminFile := None |}.
Proof.
  intros s r.
  assert (Hreq : chooseUpload s = inr r) by reflexivity.
  split; [exact Hreq|].
  pose proof (admin_upload_clears_on_store failingPdf true emptyStore s r Hreq) as H.
  destruct (adminBackend failingPdf true emptyStore r) as [answer st'] eqn:Hrun.
  cbn [fst].
  destruct H as [(_ & Hclear & _) | (H500 & _)]; [exact Hclear|].
  injection Hrun as <- _. discriminate H500.
Defined.

End RouteExamples.
